(** * US / microscopy fiducial phantom: applying a registration

    A shallow embedding of the analysis functions of the notebooks
    ([open_us], [open_mpm], [rotate_axes_to_microscope],
    [positions_from_ometif], [get_xy_origin], [apply_transform]) and of the
    cell that registers the microscopy image onto the ultrasound grid,
    together with the part of numpy and SimpleITK they call.

    Conventions.
    - Physical quantities (spacing, origin, direction cosines, transform
      parameters, stage positions) are real numbers; they idealise the
      double-precision values of the program.
    - Voxel intensities are integers tagged with a numpy integer dtype; a cast
      between integer dtypes wraps around, as numpy's [astype] does. Volumes
      of floating-point samples are not represented.
    - A number read from metadata is a float; the integers that an XML or
      JSON reader may produce for integral text are not told apart from them.
    - A Python exception is a value [Raise e] of the [result] type.
    - Images are three-dimensional, stored as numpy sees them: axis 0 is the
      slowest (z), axis 2 the fastest (x). *)

From stdpp Require Import base gmap strings list.
From Stdlib Require Import ZArith Reals RNsatz Lra Lia.

Set Warnings "-register-all".

(* ===================================================================== *)
(** ** Python results and exceptions *)
(* ===================================================================== *)

Inductive exn :=
| KeyError
| TypeError
| IndexError
| ValueError
| AxisError
| RuntimeError.

Inductive result (A : Type) :=
| Ok (a : A)
| Raise (e : exn).
Arguments Ok {A} a.
Arguments Raise {A} e.

Definition rbind {A B} (r : result A) (k : A -> result B) : result B :=
  match r with
  | Ok a => k a
  | Raise e => Raise e
  end.

Notation "x <~ e ; k" := (rbind e (fun x => k))
  (at level 20, e at level 100, k at level 200, only parsing).

Definition raises {A} (r : result A) : Prop := exists e, r = Raise e.

(* ===================================================================== *)
(** ** Python values read from JSON and XML metadata *)
(* ===================================================================== *)

Module py.

(** [PNum] is a Python float. *)
Inductive pyval :=
| PNone
| PBool (b : bool)
| PNum (r : R)
| PStr (s : string)
| PList (l : list pyval)
| PDict (d : gmap string pyval).

Inductive key :=
| KStr (s : string)
| KInt (n : nat).

Definition char (c : Ascii.ascii) : pyval := PStr (String c EmptyString).

(** [v[k]] *)
Definition getitem (v : pyval) (k : key) : result pyval :=
  match v, k with
  | PDict d, KStr s =>
      match d !! s with
      | Some x => Ok x
      | None => Raise KeyError
      end
  | PDict _, KInt _ => Raise KeyError
  | PList l, KInt n =>
      match l !! n with
      | Some x => Ok x
      | None => Raise IndexError
      end
  | PStr s, KInt n =>
      match String.get n s with
      | Some c => Ok (char c)
      | None => Raise IndexError
      end
  | _, _ => Raise TypeError
  end.

(** The values a [for] loop over [v] visits. *)
Definition iter (v : pyval) : result (list pyval) :=
  match v with
  | PList l => Ok l
  | PDict d => Ok ((fun kv => PStr (fst kv)) <$> map_to_list d)
  | PStr s => Ok (char <$> String.list_ascii_of_string s)
  | _ => Raise TypeError
  end.

End py.

(* ===================================================================== *)
(** ** numpy: integer volumes and tables of positions *)
(* ===================================================================== *)

Module np.

Inductive dtype :=
| uint8 | int8 | uint16 | int16 | uint32 | int32 | uint64 | int64.

Definition bits (d : dtype) : Z :=
  match d with
  | uint8 | int8 => 8
  | uint16 | int16 => 16
  | uint32 | int32 => 32
  | uint64 | int64 => 64
  end.

Definition signed (d : dtype) : bool :=
  match d with
  | int8 | int16 | int32 | int64 => true
  | _ => false
  end.

(** The value an integer takes when it is stored in dtype [d]: the low
    [bits d] bits, read as unsigned or as two's complement. *)
Definition wrap (d : dtype) (z : Z) : Z :=
  if signed d
  then (z + 2 ^ (bits d - 1)) mod 2 ^ bits d - 2 ^ (bits d - 1)
  else z mod 2 ^ bits d.

Definition tabulate {A} (n : nat) (f : nat -> A) : list A := f <$> seq 0 n.

(** [shape] is (d0, d1, d2); [data] is the nested list [data[i][j][k]]. *)
Record ndarray := mk_ndarray {
  dt : dtype;
  shape : nat * nat * nat;
  data : list (list (list Z))
}.

Definition wf (a : ndarray) : Prop :=
  let '(d0, d1, d2) := shape a in
  length (data a) = d0 /\
  Forall (fun plane => length plane = d1 /\
                       Forall (fun row => length row = d2) plane) (data a).

(** [a[i, j, k]]; out of range it raises, as numpy does. *)
Definition item (a : ndarray) (i j k : nat) : result Z :=
  match data a !! i with
  | Some plane =>
      match plane !! j with
      | Some row =>
          match row !! k with
          | Some v => Ok v
          | None => Raise IndexError
          end
      | None => Raise IndexError
      end
  | None => Raise IndexError
  end.

(** Total read used to build views; only called inside the shape. *)
Definition get (a : ndarray) (i j k : nat) : Z :=
  nth k (nth j (nth i (data a) []) []) 0%Z.

Definition of_fun (d : dtype) (s : nat * nat * nat) (f : nat -> nat -> nat -> Z)
  : ndarray :=
  let '(d0, d1, d2) := s in
  {| dt := d; shape := s;
     data := tabulate d0 (fun i => tabulate d1 (fun j => tabulate d2 (f i j))) |}.

(** Exchange components [p] and [q] of a triple (of extents or of indices). *)
Definition swap3 {A} (p q : nat) (t : A * A * A) : option (A * A * A) :=
  let '(a, b, c) := t in
  match p, q with
  | 0, 0 | 1, 1 | 2, 2 => Some (a, b, c)
  | 0, 1 | 1, 0 => Some (b, a, c)
  | 0, 2 | 2, 0 => Some (c, b, a)
  | 1, 2 | 2, 1 => Some (a, c, b)
  | _, _ => None
  end.

(** [np.swapaxes(a, p, q)]: the element at an index of the result is the
    element of [a] at that index with positions [p] and [q] exchanged. *)
Definition swapaxes (a : ndarray) (p q : nat) : result ndarray :=
  match swap3 p q (shape a) with
  | None => Raise AxisError
  | Some s =>
      Ok (of_fun (dt a) s
            (fun i j k =>
               match swap3 p q (i, j, k) with
               | Some (i', j', k') => get a i' j' k'
               | None => 0%Z
               end))
  end.

(** [np.flip(a, axis)]: reverse the order of the elements along [axis]. *)
Definition flip (a : ndarray) (axis : nat) : result ndarray :=
  match axis with
  | 0 => Ok {| dt := dt a; shape := shape a; data := reverse (data a) |}
  | 1 => Ok {| dt := dt a; shape := shape a; data := reverse <$> data a |}
  | 2 => Ok {| dt := dt a; shape := shape a;
               data := fmap (M := list) reverse <$> data a |}
  | _ => Raise AxisError
  end.

(** [a.astype(d)] between integer dtypes: every element wraps into [d]. *)
Definition astype (a : ndarray) (d : dtype) : ndarray :=
  {| dt := d; shape := shape a; data := fmap (M := list) (fmap (M := list) (wrap d)) <$> data a |}.

(** *** Two-dimensional arrays: one row per position *)

(** An array of floats, or an array of another dtype (text, objects,
    booleans), of which only the elements it was built from are kept. *)
Inductive array2 :=
| Float2 (rows : list (list R))
| Other2 (rows : list (list py.pyval)).

(** The float a value becomes in an array of floats: a float is itself, a
    boolean is 1 or 0; nothing else is converted. *)
Definition as_float (v : py.pyval) : option R :=
  match v with
  | py.PNum r => Some r
  | py.PBool b => Some (if b then 1%R else 0%R)
  | _ => None
  end.

Definition is_float (v : py.pyval) : bool :=
  match v with
  | py.PNum _ => true
  | _ => false
  end.

(** [np.array] of a list of rows. Without rows it is an empty array of
    floats. Otherwise it is an array of floats when every element is a float
    or a boolean and a float is among them; the booleans are then converted. *)
Definition array (rows : list (list py.pyval)) : array2 :=
  match rows with
  | [] => Float2 []
  | _ =>
      match mapM (mapM as_float) rows with
      | Some fl =>
          if existsb (existsb is_float) rows then Float2 fl else Other2 rows
      | None => Other2 rows
      end
  end.

(** Element-wise minimum of two rows. *)
Definition minimum (a b : list R) : list R := zip_with Rmin a b.

(** [np.min(a, 0)]: the minimum down each column. It needs at least one
    row, and numbers to compare. *)
Definition min0 (a : array2) : result (list R) :=
  match a with
  | Float2 [] => Raise ValueError
  | Float2 (r :: rest) => Ok (fold_left minimum rest r)
  | Other2 _ => Raise TypeError
  end.

(** [c * a] for a vector of floats. *)
Definition scale (c : R) (a : list R) : list R := Rmult c <$> a.

End np.

(* ===================================================================== *)
(** ** Vectors and matrices of physical space *)
(* ===================================================================== *)

Module geom.
Local Open Scope R_scope.

Definition vec : Type := R * R * R.
(** A matrix is the triple of its rows. *)
Definition mat : Type := vec * vec * vec.

Definition vadd (a b : vec) : vec :=
  let '(a0, a1, a2) := a in let '(b0, b1, b2) := b in (a0 + b0, a1 + b1, a2 + b2).

Definition vsub (a b : vec) : vec :=
  let '(a0, a1, a2) := a in let '(b0, b1, b2) := b in (a0 - b0, a1 - b1, a2 - b2).

Definition vopp (a : vec) : vec :=
  let '(a0, a1, a2) := a in (- a0, - a1, - a2).

Definition dot (a b : vec) : R :=
  let '(a0, a1, a2) := a in let '(b0, b1, b2) := b in a0 * b0 + a1 * b1 + a2 * b2.

Definition mulv (m : mat) (v : vec) : vec :=
  let '(r0, r1, r2) := m in (dot r0 v, dot r1 v, dot r2 v).

Definition transpose (m : mat) : mat :=
  let '((a, b, c), (d, e, f), (g, h, i)) := m in
  ((a, d, g), (b, e, h), (c, f, i)).

Definition mmul (m n : mat) : mat :=
  let '(r0, r1, r2) := m in
  let '(c0, c1, c2) := transpose n in
  ((dot r0 c0, dot r0 c1, dot r0 c2),
   (dot r1 c0, dot r1 c1, dot r1 c2),
   (dot r2 c0, dot r2 c1, dot r2 c2)).

Definition identity : mat := ((1, 0, 0), (0, 1, 0), (0, 0, 1)).

Definition det (m : mat) : R :=
  let '((a, b, c), (d, e, f), (g, h, i)) := m in
  a * (e * i - f * h) - b * (d * i - f * g) + c * (d * h - e * g).

(** Inverse by cofactors; meaningful when [det m <> 0]. *)
Definition inverse (m : mat) : mat :=
  let '((a, b, c), (d, e, f), (g, h, i)) := m in
  let k := / det m in
  ((k * (e * i - f * h), k * (c * h - b * i), k * (b * f - c * e)),
   (k * (f * g - d * i), k * (a * i - c * g), k * (c * d - a * f)),
   (k * (d * h - e * g), k * (b * g - a * h), k * (a * e - b * d))).

Definition orthonormal (m : mat) : Prop := mmul m (transpose m) = identity.

(** The first three components of a list, when it has that many: the
    toolkit reads a point or a spacing of three components from a longer
    sequence and ignores the rest. *)
Definition vec_of_list (l : list R) : option vec :=
  match l with
  | a :: b :: c :: _ => Some (a, b, c)
  | _ => None
  end.

Definition list_of_vec (v : vec) : list R :=
  let '(a, b, c) := v in [a; b; c].

(** A direction is passed to and returned by the toolkit row by row. *)
Definition mat_of_list (l : list R) : option mat :=
  match l with
  | [a; b; c; d; e; f; g; h; i] => Some ((a, b, c), (d, e, f), (g, h, i))
  | _ => None
  end.

Definition list_of_mat (m : mat) : list R :=
  let '((a, b, c), (d, e, f), (g, h, i)) := m in [a; b; c; d; e; f; g; h; i].

End geom.

(* ===================================================================== *)
(** ** SimpleITK: images, the versor rigid transform, resampling *)
(* ===================================================================== *)

Module sitk.
Import geom.
Local Open Scope R_scope.

Inductive PixelID :=
| sitkUInt8 | sitkInt8 | sitkUInt16 | sitkInt16
| sitkUInt32 | sitkInt32 | sitkUInt64 | sitkInt64.

Definition dtype_of_pixel (p : PixelID) : np.dtype :=
  match p with
  | sitkUInt8 => np.uint8 | sitkInt8 => np.int8
  | sitkUInt16 => np.uint16 | sitkInt16 => np.int16
  | sitkUInt32 => np.uint32 | sitkInt32 => np.int32
  | sitkUInt64 => np.uint64 | sitkInt64 => np.int64
  end.

Definition pixel_of_dtype (d : np.dtype) : PixelID :=
  match d with
  | np.uint8 => sitkUInt8 | np.int8 => sitkInt8
  | np.uint16 => sitkUInt16 | np.int16 => sitkInt16
  | np.uint32 => sitkUInt32 | np.int32 => sitkInt32
  | np.uint64 => sitkUInt64 | np.int64 => sitkInt64
  end.

(** [pixels] holds the samples in numpy order [z][y][x]; [spacing] and
    [origin] are in (x, y, z) order. *)
Record Image := mk_Image {
  pixels : np.ndarray;
  spacing : vec;
  origin : vec;
  direction : mat
}.

Definition GetPixelID (img : Image) : PixelID := pixel_of_dtype (np.dt (pixels img)).

(** (nx, ny, nz). *)
Definition GetSize (img : Image) : nat * nat * nat :=
  let '(d0, d1, d2) := np.shape (pixels img) in (d2, d1, d0).

Definition GetSpacing (img : Image) : list R := list_of_vec (spacing img).
Definition GetOrigin (img : Image) : list R := list_of_vec (origin img).
Definition GetDirection (img : Image) : list R := list_of_mat (direction img).

Definition GetPixel (img : Image) (x y z : nat) : result Z :=
  np.item (pixels img) z y x.

Definition GetArrayFromImage (img : Image) : np.ndarray := pixels img.

(** A new image around the array, with the default geometry. *)
Definition GetImageFromArray (arr : np.ndarray) : Image :=
  {| pixels := arr; spacing := (1, 1, 1); origin := (0, 0, 0);
     direction := identity |}.

(** The spacing the toolkit accepts: three components, each strictly
    positive. *)
Definition spacing_of_list (s : list R) : option vec :=
  match vec_of_list s with
  | Some (a, b, c) =>
      if Rlt_dec 0 a then
        if Rlt_dec 0 b then
          if Rlt_dec 0 c then Some (a, b, c) else None
        else None
      else None
  | None => None
  end.

(** Fewer than three components, or a component that is zero or negative,
    is refused. *)
Definition SetSpacing (img : Image) (s : list R) : result Image :=
  match spacing_of_list s with
  | Some v => Ok {| pixels := pixels img; spacing := v; origin := origin img;
                    direction := direction img |}
  | None => Raise RuntimeError
  end.

(** Fewer than three components is refused. *)
Definition SetOrigin (img : Image) (o : list R) : result Image :=
  match vec_of_list o with
  | Some v => Ok {| pixels := pixels img; spacing := spacing img; origin := v;
                    direction := direction img |}
  | None => Raise RuntimeError
  end.

(** The toolkit refuses a direction of the wrong length or of determinant 0. *)
Definition SetDirection (img : Image) (d : list R) : result Image :=
  match mat_of_list d with
  | Some m =>
      if Req_dec_T (det m) 0 then Raise RuntimeError
      else Ok {| pixels := pixels img; spacing := spacing img;
                 origin := origin img; direction := m |}
  | None => Raise RuntimeError
  end.

(** *** VersorRigid3DTransform *)

(** The versor is the unit quaternion (x, y, z, w). *)
Record VersorRigid3DTransform := mk_Versor {
  versor : R * R * R * R;
  translation : vec;
  center : vec
}.

(** [sitk.VersorRigid3DTransform()]: the identity. *)
Definition VersorRigid3DTransform_new : VersorRigid3DTransform :=
  {| versor := (0, 0, 0, 1); translation := (0, 0, 0); center := (0, 0, 0) |}.

Definition epsilon : R := / 10000000000.

(** The first six parameters are the three stored versor components and the
    translation; further ones are ignored and fewer are refused. A stored
    part of norm 1 - epsilon or more is first divided by its norm times
    (1 + epsilon); the fourth component follows from the unit norm. The
    centre of rotation is not a parameter and is left as it is. *)
Definition SetParameters (t : VersorRigid3DTransform) (p : list R)
  : result VersorRigid3DTransform :=
  match p with
  | x :: y :: z :: tx :: ty :: tz :: _ =>
      let norm := sqrt (x * x + y * y + z * z) in
      let s := if Rle_dec (1 - epsilon) norm then norm + epsilon * norm else 1 in
      Ok {| versor := (x / s, y / s, z / s,
                       sqrt (1 - (x / s * (x / s) + y / s * (y / s) + z / s * (z / s))));
            translation := (tx, ty, tz);
            center := center t |}
  | _ => Raise RuntimeError
  end.

(** Rotation matrix of a quaternion. *)
Definition rotation_of (q : R * R * R * R) : mat :=
  let '(x, y, z, w) := q in
  ((1 - 2 * (y * y + z * z), 2 * (x * y - z * w), 2 * (x * z + y * w)),
   (2 * (x * y + z * w), 1 - 2 * (x * x + z * z), 2 * (y * z - x * w)),
   (2 * (x * z - y * w), 2 * (y * z + x * w), 1 - 2 * (x * x + y * y))).

Definition GetMatrix (t : VersorRigid3DTransform) : mat := rotation_of (versor t).

(** x |-> M (x - c) + c + t *)
Definition TransformPoint (t : VersorRigid3DTransform) (p : vec) : vec :=
  vadd (vadd (mulv (GetMatrix t) (vsub p (center t))) (center t)) (translation t).

(** *** Resampling *)

Inductive InterpolatorEnum :=
| sitkNearestNeighbor
| sitkLinear.

Definition pixel_min (p : PixelID) : Z :=
  let d := dtype_of_pixel p in
  if np.signed d then (- 2 ^ (np.bits d - 1))%Z else 0%Z.

Definition pixel_max (p : PixelID) : Z :=
  let d := dtype_of_pixel p in
  if np.signed d then (2 ^ (np.bits d - 1) - 1)%Z else (2 ^ np.bits d - 1)%Z.

(** Rounding toward zero, the conversion of a real to an integer sample. *)
Definition trunc (r : R) : Z :=
  if Rle_dec 0 r then Int_part r else (- Int_part (- r))%Z.

(** A computed value becomes a sample of the output type: values beyond
    the range of the type saturate, the others lose their fraction. *)
Definition cast_pixel (p : PixelID) (v : R) : Z :=
  if Rlt_dec v (IZR (pixel_min p)) then pixel_min p
  else if Rlt_dec (IZR (pixel_max p)) v then pixel_max p
  else trunc v.

(** Index (i, j, k) along (x, y, z) to physical space: o + D (s .* idx). *)
Definition TransformIndexToPhysicalPoint (img : Image) (idx : nat * nat * nat)
  : vec :=
  let '(i, j, k) := idx in
  let '(sx, sy, sz) := spacing img in
  vadd (origin img) (mulv (direction img) (INR i * sx, INR j * sy, INR k * sz)).

Definition TransformPhysicalPointToContinuousIndex (img : Image) (p : vec) : vec :=
  let '(sx, sy, sz) := spacing img in
  let '(u, v, w) := mulv (inverse (direction img)) (vsub p (origin img)) in
  (u / sx, v / sy, w / sz).

(** A voxel covers half a step on each side of its index. *)
Definition inside1 (n : nat) (c : R) : bool :=
  if Rle_dec (- (1 / 2)) c
  then if Rlt_dec c (INR n - 1 / 2) then true else false
  else false.

Definition IsInsideBuffer (img : Image) (c : vec) : bool :=
  let '(nx, ny, nz) := GetSize img in
  let '(cx, cy, cz) := c in
  inside1 nx cx && inside1 ny cy && inside1 nz cz.

Definition sample (img : Image) (x y z : Z) : R :=
  IZR (np.get (pixels img) (Z.to_nat z) (Z.to_nat y) (Z.to_nat x)).

(** Along one axis of extent [n]: the index below the position, the index
    above it (both kept on the grid) and the distance from the lower one. *)
Definition cell (n : nat) (c : R) : Z * Z * R :=
  let c' := Rmax 0 (Rmin (INR n - 1) c) in
  let b := Int_part c' in
  (b, Z.min (b + 1) (Z.of_nat n - 1), c' - IZR b).

Definition lerp (a b w : R) : R := a + (b - a) * w.

Definition LinearInterpolate (img : Image) (c : vec) : R :=
  let '(nx, ny, nz) := GetSize img in
  let '(cx, cy, cz) := c in
  let '(x0, x1, wx) := cell nx cx in
  let '(y0, y1, wy) := cell ny cy in
  let '(z0, z1, wz) := cell nz cz in
  lerp
    (lerp (lerp (sample img x0 y0 z0) (sample img x1 y0 z0) wx)
          (lerp (sample img x0 y1 z0) (sample img x1 y1 z0) wx) wy)
    (lerp (lerp (sample img x0 y0 z1) (sample img x1 y0 z1) wx)
          (lerp (sample img x0 y1 z1) (sample img x1 y1 z1) wx) wy)
    wz.

Definition NearestNeighborInterpolate (img : Image) (c : vec) : R :=
  let '(cx, cy, cz) := c in
  sample img (Int_part (cx + 1 / 2)) (Int_part (cy + 1 / 2)) (Int_part (cz + 1 / 2)).

Definition Evaluate (interp : InterpolatorEnum) (img : Image) (c : vec) : R :=
  match interp with
  | sitkNearestNeighbor => NearestNeighborInterpolate img c
  | sitkLinear => LinearInterpolate img c
  end.

(** The value written at index (i, j, k) of the output grid. *)
Definition resampled_value (image1 reference : Image) (t : VersorRigid3DTransform)
    (interp : InterpolatorEnum) (defaultPixelValue : R) (outputPixelType : PixelID)
    (i j k : nat) : Z :=
  let p := TransformIndexToPhysicalPoint reference (i, j, k) in
  let c := TransformPhysicalPointToContinuousIndex image1 (TransformPoint t p) in
  if IsInsideBuffer image1 c
  then cast_pixel outputPixelType (Evaluate interp image1 c)
  else cast_pixel outputPixelType defaultPixelValue.

(** [sitk.Resample(image1, referenceImage, transform, interpolator,
    defaultPixelValue, outputPixelType)]: the output lives on the grid of the
    reference image; each of its points is sent through the transform into
    [image1] and read there. *)
Definition Resample (image1 reference : Image) (t : VersorRigid3DTransform)
    (interp : InterpolatorEnum) (defaultPixelValue : R) (outputPixelType : PixelID)
  : Image :=
  {| pixels :=
       np.of_fun (dtype_of_pixel outputPixelType) (np.shape (pixels reference))
         (fun z y x =>
            resampled_value image1 reference t interp defaultPixelValue
              outputPixelType x y z);
     spacing := spacing reference;
     origin := origin reference;
     direction := direction reference |}.

End sitk.

(* ===================================================================== *)
(** ** Objects: images, transforms and parameter vectors behind references *)
(* ===================================================================== *)

Module obj.

Inductive object :=
| OImage (img : sitk.Image)
| OTransform (t : sitk.VersorRigid3DTransform)
| OArray (a : list R).

(** The store is the list of all objects created so far; a reference is a
    position in it. An exception leaves the store as it was when raised. *)
Abbreviation store := (list object).
Definition ref : Type := nat.
Definition M (A : Type) : Type := store -> result A * store.

Definition ret {A} (a : A) : M A := fun h => (Ok a, h).
Definition raise {A} (e : exn) : M A := fun h => (Raise e, h).

Definition bind {A B} (m : M A) (k : A -> M B) : M B :=
  fun h =>
    match m h with
    | (Ok a, h') => k a h'
    | (Raise e, h') => (Raise e, h')
    end.

Definition alloc (o : object) : M ref := fun h => (Ok (length h), h ++ [o]).

Definition load (l : ref) : M object :=
  fun h =>
    match h !! l with
    | Some o => (Ok o, h)
    | None => (Raise RuntimeError, h)
    end.

Definition write (l : ref) (o : object) : M unit :=
  fun h => (Ok tt, <[l := o]> h).

Definition lift {A} (r : result A) : M A :=
  match r with
  | Ok a => ret a
  | Raise e => raise e
  end.

End obj.

Notation "x <~~ e ; k" := (obj.bind e (fun x => k))
  (at level 20, e at level 100, k at level 200, only parsing).

Module oo.
Import obj.

Definition load_image (l : ref) : M sitk.Image :=
  o <~~ load l ;
  match o with
  | OImage img => ret img
  | _ => raise TypeError
  end.

Definition load_transform (l : ref) : M sitk.VersorRigid3DTransform :=
  o <~~ load l ;
  match o with
  | OTransform t => ret t
  | _ => raise TypeError
  end.

Definition load_array (l : ref) : M (list R) :=
  o <~~ load l ;
  match o with
  | OArray a => ret a
  | _ => raise TypeError
  end.

(** [sitk.VersorRigid3DTransform()] *)
Definition VersorRigid3DTransform : M ref :=
  alloc (OTransform sitk.VersorRigid3DTransform_new).

(** [transform.SetParameters(params)]: the transform object is updated in
    place from the values of the vector. *)
Definition SetParameters (transform params : ref) : M unit :=
  t <~~ load_transform transform ;
  p <~~ load_array params ;
  t' <~~ lift (sitk.SetParameters t p) ;
  write transform (OTransform t').

(** [image.GetPixelID()] *)
Definition GetPixelID (image : ref) : M sitk.PixelID :=
  img <~~ load_image image ;
  ret (sitk.GetPixelID img).

(** [sitk.Resample(...)]: reads its arguments, creates the output image. *)
Definition Resample (image1 reference transform : ref)
    (interp : sitk.InterpolatorEnum) (defaultPixelValue : R)
    (outputPixelType : sitk.PixelID) : M ref :=
  m <~~ load_image image1 ;
  f <~~ load_image reference ;
  t <~~ load_transform transform ;
  alloc (OImage (sitk.Resample m f t interp defaultPixelValue outputPixelType)).

(** [c * a] creates a new vector. *)
Definition scalar_mul (c : R) (a : ref) : M ref :=
  v <~~ load_array a ;
  alloc (OArray (np.scale c v)).

End oo.

(* ===================================================================== *)
(** ** The functions of the notebook *)
(* ===================================================================== *)

Section notebook.
Local Open Scope R_scope.

(** Collaborators outside the notebook: reading an image file, the
    windowing of [multiscale.itk.process], the metadata dictionary of a file,
    tifffile's XML reader, and the position-list helpers of
    [multiscale.utility_functions] and [multiscale.ultrasound.reconstruction].
    The second component of what [clean_position_text] returns is not used. *)
Variable ReadImage : string -> result sitk.Image.
Variable window_image : sitk.Image -> R -> result sitk.Image.
Variable ReadImageInformation : string -> result (gmap string string).
Variable xml2dict : string -> result py.pyval.
Variable read_json : string -> result py.pyval.
Variable clean_position_text : py.pyval -> result (np.array2 * py.pyval).

(** [reader.GetMetaData(key)] *)
Definition GetMetaData (md : gmap string string) (k : string) : result string :=
  match md !! k with
  | Some v => Ok v
  | None => Raise RuntimeError
  end.

Definition rotate_axes_to_microscope (image : sitk.Image) : result sitk.Image :=
  let arr := sitk.GetArrayFromImage image in
  arr_rot <~ np.swapaxes arr 0 1 ;
  flipped <~ np.flip arr_rot 0 ;
  let arr_rot := np.astype flipped np.uint8 in
  Ok (sitk.GetImageFromArray arr_rot).

Definition open_us (us_path : string) (dynamic_range : R) (spacing origin : list R)
  : result sitk.Image :=
  raw_image <~ ReadImage us_path ;
  windowed_image <~ window_image raw_image dynamic_range ;
  us_image <~ rotate_axes_to_microscope windowed_image ;
  us_image <~ sitk.SetSpacing us_image spacing ;
  us_image <~ sitk.SetOrigin us_image origin ;
  us_image <~ sitk.SetDirection us_image [1; 0; 0; 0; 1; 0; 0; 0; -1] ;
  Ok us_image.

(** The body of the loop over the image entries, and the loop. *)
Definition position_of (position : py.pyval) : result (list py.pyval) :=
  sl <~ py.getitem position (py.KStr "StageLabel") ;
  x <~ py.getitem sl (py.KStr "X") ;
  sl <~ py.getitem position (py.KStr "StageLabel") ;
  y <~ py.getitem sl (py.KStr "Y") ;
  px <~ py.getitem position (py.KStr "Pixels") ;
  pl <~ py.getitem px (py.KStr "Plane") ;
  p0 <~ py.getitem pl (py.KInt 0) ;
  z <~ py.getitem p0 (py.KStr "PositionZ") ;
  Ok [x; y; z].

Fixpoint positions_loop (todo : list py.pyval) (mpm_list : list (list py.pyval))
  : result (list (list py.pyval)) :=
  match todo with
  | [] => Ok mpm_list
  | position :: rest =>
      row <~ position_of position ;
      positions_loop rest (mpm_list ++ [row])
  end.

Definition positions_from_ometif (file_path : string) : result np.array2 :=
  md <~ ReadImageInformation file_path ;
  raw_info <~ GetMetaData md "ImageDescription" ;
  info <~ xml2dict raw_info ;
  ome <~ py.getitem info (py.KStr "OME") ;
  images <~ py.getitem ome (py.KStr "Image") ;
  todo <~ py.iter images ;
  mpm_list <~ positions_loop todo [] ;
  Ok (np.array mpm_list).

Definition open_mpm (mpm_path mpm_origin_path : string) (mpm_spacing : list R)
  : result sitk.Image :=
  positions <~ positions_from_ometif mpm_origin_path ;
  origin <~ np.min0 positions ;
  mpm_image <~ ReadImage mpm_path ;
  mpm_image <~ sitk.SetSpacing mpm_image mpm_spacing ;
  mpm_image <~ sitk.SetOrigin mpm_image origin ;
  mpm_image <~ sitk.SetDirection mpm_image [1; 0; 0; 0; 1; 0; 0; 0; -1] ;
  Ok mpm_image.

Definition get_xy_origin (pl_path : string) : result (list R) :=
  raw_pos_list <~ read_json pl_path ;
  cleaned <~ clean_position_text raw_pos_list ;
  let pos_list := fst cleaned in
  xy_origin <~ np.min0 pos_list ;
  Ok xy_origin.

Definition apply_transform (moving_image fixed_image transform_params : obj.ref)
  : obj.M obj.ref :=
  transform <~~ oo.VersorRigid3DTransform ;
  _ <~~ oo.SetParameters transform transform_params ;
  pixel_id <~~ oo.GetPixelID fixed_image ;
  reg <~~ oo.Resample moving_image fixed_image transform sitk.sitkLinear 0
            pixel_id ;
  obj.ret reg.

(** The cell "Apply the transform MPM -> US". *)
Definition register_mpm_to_us (mpm_tendon us_tendon coordinate_transform : obj.ref)
  : obj.M obj.ref :=
  negated <~~ oo.scalar_mul (-1) coordinate_transform ;
  apply_transform mpm_tendon us_tendon negated.

End notebook.

(* ===================================================================== *)
(** ** Rigid maps of physical space *)
(* ===================================================================== *)

Module rigid.
Import geom.
Local Open Scope R_scope.

(** The stored part of the versor of a parameter vector has norm at most 1. *)
Definition valid_parameters (p : list R) : Prop :=
  match p with
  | [x; y; z; _; _; _] => x * x + y * y + z * z <= 1
  | _ => False
  end.

(** The map x |-> M x + t as the pair (M, t). *)
Definition map : Type := mat * vec.

Definition apply (g : map) (x : vec) : vec := vadd (mulv (fst g) x) (snd g).

(** The inverse of (R, t) is (R^-1, - R^-1 t). *)
Definition true_inverse (g : map) : map :=
  (inverse (fst g), vopp (mulv (inverse (fst g)) (snd g))).

(** The matrix and the offset of a transform object. *)
Definition of_transform (t : sitk.VersorRigid3DTransform) : map :=
  (sitk.GetMatrix t,
   vadd (vsub (sitk.center t) (mulv (sitk.GetMatrix t) (sitk.center t)))
        (sitk.translation t)).

(** The mirror of the depth axis. *)
Definition z_mirror : mat := ((1, 0, 0), (0, 1, 0), (0, 0, -1)).

End rigid.


(* ===================================================================== *)
(** ** Closed forms used in the statements *)
(* ===================================================================== *)

Module views.
Import np.

(** The quarter turn in the first two axes, followed by the cast to 8 bits:
    element [i, j, k] is element [j, d1-1-i, k] of [a], wrapped. *)
Definition quarter_turn (a : ndarray) : ndarray :=
  let '(d0, d1, d2) := shape a in
  of_fun uint8 (d1, d0, d2) (fun i j k => wrap uint8 (get a j (d1 - 1 - i) k)).

(** Column [c] of a table of rows. *)
Definition column (c : nat) (rows : list (list R)) : list R :=
  (fun r => nth c r 0%R) <$> rows.

(** [m] is the least element of [l]. *)
Definition least (m : R) (l : list R) : Prop :=
  m ∈ l /\ forall x, x ∈ l -> (m <= x)%R.


End views.

(* ===================================================================== *)
(** ** Descriptors with a missing field *)
(* ===================================================================== *)

Module ome.
Import py.

(** The entry of key [k] in [v], when [v] is a dictionary that has one. *)
Definition field (v : pyval) (k : string) : option pyval :=
  match v with
  | PDict d => d !! k
  | _ => None
  end.

Definition lacks (v : pyval) (k : string) : Prop := field v k = None.

(** One of the fields read for a tile is not there. *)
Inductive tile_lacks (p : pyval) : Prop :=
| no_StageLabel : lacks p "StageLabel" -> tile_lacks p
| no_X sl : field p "StageLabel" = Some sl -> lacks sl "X" -> tile_lacks p
| no_Y sl : field p "StageLabel" = Some sl -> lacks sl "Y" -> tile_lacks p
| no_Pixels : lacks p "Pixels" -> tile_lacks p
| no_Plane px : field p "Pixels" = Some px -> lacks px "Plane" -> tile_lacks p
| no_first_plane px pl e :
    field p "Pixels" = Some px -> field px "Plane" = Some pl ->
    getitem pl (KInt 0) = Raise e -> tile_lacks p
| no_PositionZ px pl p0 :
    field p "Pixels" = Some px -> field px "Plane" = Some pl ->
    getitem pl (KInt 0) = Ok p0 -> lacks p0 "PositionZ" -> tile_lacks p.

(** One of the fields read from the descriptor is not there. *)
Inductive descriptor_lacks (info : pyval) : Prop :=
| no_OME : lacks info "OME" -> descriptor_lacks info
| no_Image o : field info "OME" = Some o -> lacks o "Image" -> descriptor_lacks info
| in_tile o images todo p :
    field info "OME" = Some o -> field o "Image" = Some images ->
    iter images = Ok todo -> p ∈ todo -> tile_lacks p ->
    descriptor_lacks info.

End ome.

(* ===================================================================== *)
(** ** Sample data *)
(* ===================================================================== *)

Module samples.
Local Open Scope Z_scope.

(** A one-voxel 16-bit volume holding 300. *)
Definition bright_voxel : sitk.Image :=
  sitk.GetImageFromArray
    {| np.dt := np.uint16; np.shape := (1%nat, 1%nat, 1%nat);
       np.data := [[[300]]] |}.

(** A volume of shape (1, 2, 1). *)
Definition two_voxels : sitk.Image :=
  sitk.GetImageFromArray
    {| np.dt := np.uint8; np.shape := (1%nat, 2%nat, 1%nat);
       np.data := [[[1]; [2]]] |}.

(** The files of a small run: a 16-bit ultrasound volume, a microscopy
    volume, and the descriptor of a single tile at stage position (5, 7),
    plane position 3. The windowing of the run leaves the image as it is. *)
Definition ReadImage (path : string) : result sitk.Image :=
  if String.eqb path "us.tif" then Ok bright_voxel
  else if String.eqb path "mpm.tif" then Ok two_voxels
  else Raise RuntimeError.

Definition window_image (img : sitk.Image) (dynamic_range : R) : result sitk.Image :=
  Ok img.

Definition tile (x y z : R) : py.pyval :=
  py.PDict
    (<["StageLabel" := py.PDict (<["X" := py.PNum x]> (<["Y" := py.PNum y]> ∅))]>
       (<["Pixels" :=
            py.PDict (<["Plane" :=
                          py.PList [py.PDict (<["PositionZ" := py.PNum z]> ∅)]]> ∅)]>
          ∅)).

Definition descriptor (tiles : list py.pyval) : py.pyval :=
  py.PDict (<["OME" := py.PDict (<["Image" := py.PList tiles]> ∅)]> ∅).

Definition ReadImageInformation (path : string) : result (gmap string string) :=
  Ok (<["ImageDescription" := "<OME/>"]> ∅).

Definition xml2dict (text : string) : result py.pyval :=
  Ok (descriptor [tile 5 7 3]).

(** A tile whose stage label has no Y. *)
Definition tile_without_Y (x z : R) : py.pyval :=
  py.PDict
    (<["StageLabel" := py.PDict (<["X" := py.PNum x]> ∅)]>
       (<["Pixels" :=
            py.PDict (<["Plane" :=
                          py.PList [py.PDict (<["PositionZ" := py.PNum z]> ∅)]]> ∅)]>
          ∅)).

Definition xml2dict_without_Y (text : string) : result py.pyval :=
  Ok (descriptor [tile 5 7 3; tile_without_Y 6 3]).

(** A position log with a coordinate that is text. *)
Definition log_with_text : py.pyval :=
  py.PList [py.PList [py.PNum 1; py.PNum 5];
            py.PList [py.PStr "abc"; py.PNum 2]].

Definition read_json (path : string) : result py.pyval := Ok log_with_text.

(** A half turn about the z axis followed by a shift along x. *)
Definition half_turn_shift : list R := [0; 0; 1; 1; 0; 0]%R.

End samples.

(* ===================================================================== *)
(** ** The cell that opens the ultrasound image of the tendon *)
(* ===================================================================== *)

Module cells.
Section cells.
Local Open Scope R_scope.

Variable ReadImage : string -> result sitk.Image.
Variable window_image : sitk.Image -> R -> result sitk.Image.
Variable read_json : string -> result py.pyval.
Variable clean_position_text : py.pyval -> result (np.array2 * py.pyval).

(** [a[i]] on a vector of floats. *)
Definition index (a : list R) (i : nat) : result R :=
  match a !! i with
  | Some x => Ok x
  | None => Raise IndexError
  end.

Definition us_spacing : list R := [25; 25; 25].
Definition dynamic_range : R := 50.

(** [us_xy_origin = get_xy_origin(us_pl_path)], then
    [tendon_origin = [us_xy_origin[0], us_xy_origin[1], 4]] and
    [us_tendon = open_us(tendon_us_path, dynamic_range, us_spacing, tendon_origin)]. *)
Definition us_tendon (us_pl_path tendon_us_path : string) : result sitk.Image :=
  us_xy_origin <~ get_xy_origin read_json clean_position_text us_pl_path ;
  x0 <~ index us_xy_origin 0 ;
  x1 <~ index us_xy_origin 1 ;
  let tendon_origin := [x0; x1; 4] in
  open_us ReadImage window_image tendon_us_path dynamic_range us_spacing
    tendon_origin.

End cells.
End cells.

(* ===================================================================== *)
(** ** The image entries of a descriptor *)
(* ===================================================================== *)

Module descr.
Section descr.

Variable ReadImageInformation : string -> result (gmap string string).
Variable xml2dict : string -> result py.pyval.

(** The value of [info['OME']['Image']] for a file: the first lines of
    [positions_from_ometif], up to the loop. *)
Definition images_of (file_path : string) : result py.pyval :=
  md <~ ReadImageInformation file_path ;
  raw_info <~ GetMetaData md "ImageDescription" ;
  info <~ xml2dict raw_info ;
  ome <~ py.getitem info (py.KStr "OME") ;
  py.getitem ome (py.KStr "Image").

End descr.
End descr.

(* ===================================================================== *)
(** ** Arrays whose elements are values of their dtype *)
(* ===================================================================== *)

Module typed.


End typed.

(* ===================================================================== *)
(** ** More sample data *)
(* ===================================================================== *)

Module samples2.
Local Open Scope R_scope.

(** A descriptor of two tiles, and one whose first tile has a label for X. *)
Definition xml2dict_two_tiles (text : string) : result py.pyval :=
  Ok (samples.descriptor [samples.tile 5 7 3; samples.tile 4 9 1]).

Definition tile_text_X (y z : R) : py.pyval :=
  py.PDict
    (<["StageLabel" :=
         py.PDict (<["X" := py.PStr "left"]> (<["Y" := py.PNum y]> ∅))]>
       (<["Pixels" :=
            py.PDict (<["Plane" :=
                          py.PList [py.PDict (<["PositionZ" := py.PNum z]> ∅)]]> ∅)]>
          ∅)).

Definition xml2dict_text_X (text : string) : result py.pyval :=
  Ok (samples.descriptor [tile_text_X 7 3]).

Definition xml2dict_no_tiles (text : string) : result py.pyval :=
  Ok (samples.descriptor []).

(** The descriptor of a file with a single image element, which is then a
    dictionary and not a list of dictionaries. *)
Definition xml2dict_single (text : string) : result py.pyval :=
  Ok (py.PDict (<["OME" := py.PDict (<["Image" := samples.tile 5 7 3]> ∅)]> ∅)).

Definition clean3 (raw : py.pyval) : result (np.array2 * py.pyval) :=
  Ok (np.Float2 [[1; 5]; [3; 2]; [0; 9]], py.PNone).

Definition clean3_shuffled (raw : py.pyval) : result (np.array2 * py.pyval) :=
  Ok (np.Float2 [[0; 9]; [1; 5]; [3; 2]], py.PNone).

Definition clean_empty (raw : py.pyval) : result (np.array2 * py.pyval) :=
  Ok (np.Float2 [], py.PNone).

(** Three 8-bit samples in a row along x, two units apart from x = 1 on,
    with the z axis mirrored; and a shift of two units and a half along x,
    which is a voxel and a quarter. *)
Definition row_x : sitk.Image :=
  {| sitk.pixels :=
       {| np.dt := np.uint8; np.shape := (1%nat, 1%nat, 3%nat);
          np.data := [[[10; 20; 40]]]%Z |};
     sitk.spacing := (2, 1, 1);
     sitk.origin := (1, 0, 0);
     sitk.direction := rigid.z_mirror |}.


(** The same image with a vector of five parameters. *)
Definition store_short : list obj.object :=
  [obj.OImage row_x; obj.OArray [0; 0; 0; 1; 2]].

Definition pure_shift : list R := [0; 0; 0; 1; 2; 3].

End samples2.

(* ===================================================================== *)
(** ** Arrays: reading what was built *)
(* ===================================================================== *)

Section array_facts.
Import np.

Lemma lookup_tabulate {A} (n : nat) (f : nat -> A) (i : nat) :
  i < n -> tabulate n f !! i = Some (f i).
Proof.
  intros Hi. unfold tabulate.
  rewrite list_lookup_fmap, lookup_seq_lt by lia. reflexivity.
Qed.

Lemma length_tabulate {A} (n : nat) (f : nat -> A) : length (tabulate n f) = n.
Proof. unfold tabulate. rewrite length_fmap, length_seq. reflexivity. Qed.

Lemma tabulate_ext {A} (n : nat) (f g : nat -> A) :
  (forall i, i < n -> f i = g i) -> tabulate n f = tabulate n g.
Proof.
  intros H. apply list_eq. intros i.
  destruct (decide (i < n)) as [Hi|Hi].
  - rewrite !lookup_tabulate by lia. f_equal. auto.
  - rewrite !(proj2 (lookup_ge_None _ _)); [reflexivity| |];
      rewrite length_tabulate; lia.
Qed.

Lemma tabulate_lookup {A} (l : list A) (d : A) :
  tabulate (length l) (fun i => nth i l d) = l.
Proof.
  apply list_eq. intros i.
  destruct (decide (i < length l)) as [Hi|Hi].
  - rewrite lookup_tabulate by lia.
    destruct (lookup_lt_is_Some_2 l i Hi) as [x Hx].
    rewrite (nth_lookup_Some _ _ _ _ Hx). symmetry. exact Hx.
  - rewrite !(proj2 (lookup_ge_None _ _)); [reflexivity| |];
      rewrite ?length_tabulate; lia.
Qed.


Lemma shape_of_fun d s f : shape (of_fun d s f) = s.
Proof. destruct s as [[d0 d1] d2]. reflexivity. Qed.

Lemma dt_of_fun d s f : dt (of_fun d s f) = d.
Proof. destruct s as [[d0 d1] d2]. reflexivity. Qed.

Lemma get_of_fun d d0 d1 d2 f i j k :
  i < d0 -> j < d1 -> k < d2 -> get (of_fun d (d0, d1, d2) f) i j k = f i j k.
Proof.
  intros Hi Hj Hk. unfold get, of_fun. simpl.
  rewrite (nth_lookup_Some _ _ _ _ (lookup_tabulate d0 _ i Hi)).
  rewrite (nth_lookup_Some _ _ _ _ (lookup_tabulate d1 _ j Hj)).
  apply nth_lookup_Some, lookup_tabulate, Hk.
Qed.

Lemma item_of_fun d d0 d1 d2 f i j k :
  i < d0 -> j < d1 -> k < d2 ->
  item (of_fun d (d0, d1, d2) f) i j k = Ok (f i j k).
Proof.
  intros Hi Hj Hk. unfold item, of_fun. simpl.
  rewrite (lookup_tabulate d0 _ i Hi), (lookup_tabulate d1 _ j Hj),
    (lookup_tabulate d2 _ k Hk). reflexivity.
Qed.

Lemma of_fun_ext d d0 d1 d2 f g :
  (forall i j k, i < d0 -> j < d1 -> k < d2 -> f i j k = g i j k) ->
  of_fun d (d0, d1, d2) f = of_fun d (d0, d1, d2) g.
Proof.
  intros H. unfold of_fun. f_equal.
  apply tabulate_ext. intros i Hi.
  apply tabulate_ext. intros j Hj.
  apply tabulate_ext. intros k Hk. auto.
Qed.

(** A well-formed array is the table of its own elements. *)
Lemma of_fun_get a : wf a -> of_fun (dt a) (shape a) (get a) = a.
Proof.
  destruct a as [d [[d0 d1] d2] rows]. unfold wf, of_fun, get. simpl.
  intros [Hlen Hall]. f_equal.
  etransitivity; [|apply (tabulate_lookup rows [])]. rewrite Hlen.
  apply tabulate_ext. intros i Hi.
  assert (Hp : length (nth i rows []) = d1 /\
               Forall (fun row => length row = d2) (nth i rows [])).
  { destruct (lookup_lt_is_Some_2 rows i ltac:(lia)) as [plane Hplane].
    rewrite (nth_lookup_Some _ _ _ _ Hplane).
    exact (proj1 (Forall_lookup _ _) Hall i plane Hplane). }
  destruct Hp as [Hl1 Hrows].
  etransitivity; [|apply (tabulate_lookup (nth i rows []) [])]. rewrite Hl1.
  apply tabulate_ext. intros j Hj.
  assert (Hr : length (nth j (nth i rows []) []) = d2).
  { destruct (lookup_lt_is_Some_2 (nth i rows []) j ltac:(lia)) as [row Hrow].
    rewrite (nth_lookup_Some _ _ _ _ Hrow).
    exact (proj1 (Forall_lookup _ _) Hrows j row Hrow). }
  etransitivity; [|apply (tabulate_lookup (nth j (nth i rows []) []) 0%Z)].
  rewrite Hr. reflexivity.
Qed.

Lemma item_get a i j k :
  wf a ->
  i < (shape a).1.1 -> j < (shape a).1.2 -> k < (shape a).2 ->
  item a i j k = Ok (get a i j k).
Proof.
  intros Hwf Hi Hj Hk. rewrite <- (of_fun_get a Hwf) at 1.
  destruct (shape a) as [[d0 d1] d2]. simpl in *.
  apply item_of_fun; assumption.
Qed.

End array_facts.

(* ===================================================================== *)
(** ** The axis rotation *)
(* ===================================================================== *)

Section rotation_facts.
Import np views.

Lemma reverse_tabulate {A} (n : nat) (f : nat -> A) :
  reverse (tabulate n f) = tabulate n (fun i => f (n - 1 - i)).
Proof.
  apply list_eq. intros i.
  destruct (decide (i < n)) as [Hi|Hi].
  - rewrite reverse_lookup by (rewrite length_tabulate; lia).
    rewrite length_tabulate, !lookup_tabulate by lia.
    do 2 f_equal. lia.
  - rewrite !(proj2 (lookup_ge_None _ _)); [reflexivity| |];
      rewrite ?length_reverse, length_tabulate; lia.
Qed.

Lemma fmap_tabulate {A B} (g : A -> B) (n : nat) (f : nat -> A) :
  g <$> tabulate n f = tabulate n (fun i => g (f i)).
Proof. unfold tabulate. rewrite <- list_fmap_compose. reflexivity. Qed.

Lemma astype_of_fun d s f d' :
  astype (of_fun d s f) d' = of_fun d' s (fun i j k => wrap d' (f i j k)).
Proof.
  destruct s as [[d0 d1] d2]. unfold astype, of_fun. simpl. f_equal.
  rewrite fmap_tabulate. apply tabulate_ext. intros i _.
  rewrite fmap_tabulate. apply tabulate_ext. intros j _.
  apply fmap_tabulate.
Qed.

Lemma astype_wf a d :
  wf a -> astype a d = of_fun d (shape a) (fun i j k => wrap d (get a i j k)).
Proof.
  intros Hwf. rewrite <- (of_fun_get a Hwf) at 1.
  apply astype_of_fun.
Qed.

Lemma swapaxes_0_1 a d0 d1 d2 :
  shape a = (d0, d1, d2) ->
  swapaxes a 0 1 = Ok (of_fun (dt a) (d1, d0, d2) (fun i j k => get a j i k)).
Proof. intros Hs. unfold swapaxes. rewrite Hs. reflexivity. Qed.

Lemma flip_0_of_fun d d0 d1 d2 f :
  flip (of_fun d (d0, d1, d2) f) 0 =
  Ok (of_fun d (d0, d1, d2) (fun i j k => f (d0 - 1 - i) j k)).
Proof. unfold flip, of_fun. simpl. rewrite reverse_tabulate. reflexivity. Qed.

Lemma flip_1_of_fun d d0 d1 d2 f :
  flip (of_fun d (d0, d1, d2) f) 1 =
  Ok (of_fun d (d0, d1, d2) (fun i j k => f i (d1 - 1 - j) k)).
Proof.
  unfold flip, of_fun. simpl. do 2 f_equal.
  rewrite fmap_tabulate. apply tabulate_ext. intros i _.
  apply reverse_tabulate.
Qed.

Lemma rotate_axes_eq (image : sitk.Image) :
  rotate_axes_to_microscope image =
  Ok (sitk.GetImageFromArray (quarter_turn (sitk.pixels image))).
Proof.
  unfold rotate_axes_to_microscope, sitk.GetArrayFromImage, quarter_turn.
  destruct (shape (sitk.pixels image)) as [[d0 d1] d2] eqn:Hs.
  rewrite (swapaxes_0_1 _ d0 d1 d2 Hs). cbn [rbind].
  rewrite flip_0_of_fun. cbn [rbind]. rewrite astype_of_fun. reflexivity.
Qed.

Lemma wrap_uint8 z : wrap uint8 z = (z mod 256)%Z.
Proof. reflexivity. Qed.

Lemma wrap_uint8_range z : (0 <= wrap uint8 z < 256)%Z.
Proof. rewrite wrap_uint8. apply Z.mod_pos_bound. lia. Qed.

Lemma wrap_uint8_small z : (0 <= z < 256)%Z -> wrap uint8 z = z.
Proof. intros H. rewrite wrap_uint8. apply Z.mod_small. exact H. Qed.

Lemma wrap_uint8_idem z : wrap uint8 (wrap uint8 z) = wrap uint8 z.
Proof. apply wrap_uint8_small, wrap_uint8_range. Qed.

Lemma quarter_turn_twice a d0 d1 d2 :
  shape a = (d0, d1, d2) ->
  quarter_turn (quarter_turn a) =
  of_fun uint8 (d0, d1, d2)
    (fun i j k => wrap uint8 (get a (d0 - 1 - i) (d1 - 1 - j) k)).
Proof.
  intros Hs. unfold quarter_turn at 1.
  assert (Hs1 : shape (quarter_turn a) = (d1, d0, d2)).
  { unfold quarter_turn. rewrite Hs. reflexivity. }
  rewrite Hs1. apply of_fun_ext. intros i j k Hi Hj Hk.
  unfold quarter_turn. rewrite Hs.
  rewrite get_of_fun by lia. rewrite wrap_uint8_idem.
  do 2 f_equal.
Qed.

Lemma quarter_turn_four a :
  wf a ->
  quarter_turn (quarter_turn (quarter_turn (quarter_turn a))) = astype a uint8.
Proof.
  intros Hwf. destruct (shape a) as [[d0 d1] d2] eqn:Hs.
  rewrite (quarter_turn_twice (quarter_turn (quarter_turn a)) d0 d1 d2)
    by (rewrite (quarter_turn_twice a d0 d1 d2 Hs); reflexivity).
  rewrite (quarter_turn_twice a d0 d1 d2 Hs).
  rewrite (astype_wf a uint8 Hwf), Hs.
  apply of_fun_ext. intros i j k Hi Hj Hk.
  rewrite get_of_fun by lia. rewrite wrap_uint8_idem.
  do 2 f_equal; lia.
Qed.

(** Reversal along axis 0 and axis 1: the half turn. *)
Lemma half_turn_flips a d0 d1 d2 :
  wf a -> shape a = (d0, d1, d2) ->
  (f0 <~ flip a 0 ; f1 <~ flip f0 1 ; Ok (astype f1 uint8)) =
  Ok (of_fun uint8 (d0, d1, d2)
        (fun i j k => wrap uint8 (get a (d0 - 1 - i) (d1 - 1 - j) k))).
Proof.
  intros Hwf Hs. rewrite <- (of_fun_get a Hwf) at 1. rewrite Hs.
  rewrite flip_0_of_fun. cbn [rbind]. rewrite flip_1_of_fun. cbn [rbind].
  rewrite astype_of_fun. reflexivity.
Qed.

End rotation_facts.

(* ===================================================================== *)
(** ** The rotation of the ultrasound axes (C9, C2, C10) *)
(* ===================================================================== *)

Section rotation_claims.
Import np views.

Lemma item_of_fun_inv d d0 d1 d2 f i j k v :
  item (of_fun d (d0, d1, d2) f) i j k = Ok v ->
  i < d0 /\ j < d1 /\ k < d2 /\ v = f i j k.
Proof.
  intros H.
  destruct (decide (i < d0)) as [Hi|Hi];
    [|unfold item, of_fun in H; simpl in H;
      rewrite (proj2 (lookup_ge_None _ _)) in H
        by (rewrite length_tabulate; lia); discriminate].
  destruct (decide (j < d1)) as [Hj|Hj];
    [|unfold item, of_fun in H; simpl in H;
      rewrite (lookup_tabulate d0 _ i Hi) in H;
      rewrite (proj2 (lookup_ge_None _ _)) in H
        by (rewrite length_tabulate; lia); discriminate].
  destruct (decide (k < d2)) as [Hk|Hk];
    [|unfold item, of_fun in H; simpl in H;
      rewrite (lookup_tabulate d0 _ i Hi), (lookup_tabulate d1 _ j Hj) in H;
      rewrite (proj2 (lookup_ge_None _ _)) in H
        by (rewrite length_tabulate; lia); discriminate].
  rewrite item_of_fun in H by assumption. inversion H. auto.
Qed.




(** C2 (as amended). Applying [rotate_axes_to_microscope] twice to a
    well-formed volume does not give the volume back: it gives the volume
    reversed along axis 0 and along axis 1 (a half turn), cast to 8 bits.
    Four applications give the original voxel data, up to that cast. *)
Theorem rotate_axes_twice_half_turn (image : sitk.Image) (d0 d1 d2 : nat) :
  wf (sitk.pixels image) ->
  shape (sitk.pixels image) = (d0, d1, d2) ->
  exists r1 r2 r3 r4,
    rotate_axes_to_microscope image = Ok r1 /\
    rotate_axes_to_microscope r1 = Ok r2 /\
    rotate_axes_to_microscope r2 = Ok r3 /\
    rotate_axes_to_microscope r3 = Ok r4 /\
    (f0 <~ flip (sitk.pixels image) 0 ;
     f1 <~ flip f0 1 ;
     Ok (astype f1 uint8)) = Ok (sitk.pixels r2) /\
    (forall i j k, i < d0 -> j < d1 -> k < d2 ->
       exists v,
         item (sitk.pixels image) (d0 - 1 - i) (d1 - 1 - j) k = Ok v /\
         item (sitk.pixels r2) i j k = Ok (v mod 256)%Z) /\
    sitk.pixels r4 = astype (sitk.pixels image) uint8.
Proof.
  intros Hwf Hs.
  do 4 eexists.
  split; [apply rotate_axes_eq|].
  split; [apply rotate_axes_eq|].
  split; [apply rotate_axes_eq|].
  split; [apply rotate_axes_eq|].
  unfold sitk.GetImageFromArray. cbn [sitk.pixels].
  rewrite (quarter_turn_twice _ d0 d1 d2 Hs).
  split; [apply (half_turn_flips _ d0 d1 d2 Hwf Hs)|].
  split.
  - intros i j k Hi Hj Hk.
    exists (get (sitk.pixels image) (d0 - 1 - i) (d1 - 1 - j) k).
    split.
    + apply item_get; [exact Hwf|rewrite Hs; simpl; lia..].
    + rewrite item_of_fun by assumption. reflexivity.
  - rewrite <- (quarter_turn_twice _ d0 d1 d2 Hs).
    apply quarter_turn_four, Hwf.
Qed.

Lemma rotate_axes_twice_half_turn_witness :
  exists r1 r2,
    rotate_axes_to_microscope samples.two_voxels = Ok r1 /\
    rotate_axes_to_microscope r1 = Ok r2 /\
    item (sitk.pixels r2) 0 0 0 = Ok 2%Z /\
    item (sitk.pixels r2) 0 1 0 = Ok 1%Z.
Proof.
  destruct (rotate_axes_twice_half_turn samples.two_voxels 1 2 1)
    as [r1 [r2 [r3 [r4 [H1 [H2 [_ [_ [_ [Hvox _]]]]]]]]]].
  - simpl. repeat constructor.
  - reflexivity.
  - exists r1, r2. split; [exact H1|]. split; [exact H2|].
    split.
    + destruct (Hvox 0 0 0) as [v [Hv Ho]]; [lia..|].
      inversion Hv; subst v. exact Ho.
    + destruct (Hvox 0 1 0) as [v [Hv Ho]]; [lia..|].
      inversion Hv; subst v. exact Ho.
Defined.

(** C2 as stated fails: two applications turn [[1], [2]] into [[2], [1]]. *)
Lemma rotate_axes_involution_counterexample :
  ~ (forall image : sitk.Image,
       wf (sitk.pixels image) ->
       exists r1 r2,
         rotate_axes_to_microscope image = Ok r1 /\
         rotate_axes_to_microscope r1 = Ok r2 /\
         data (sitk.pixels r2) = data (astype (sitk.pixels image) uint8)).
Proof.
  intros H.
  destruct (H samples.two_voxels) as [r1 [r2 [H1 [H2 Heq]]]].
  - simpl. repeat constructor.
  - vm_compute in H1. inversion H1; subst r1.
    vm_compute in H2. inversion H2; subst r2.
    vm_compute in Heq. discriminate.
Qed.

End rotation_claims.

(* ===================================================================== *)
(** ** Opening the two modalities (C5, C6, C10) *)
(* ===================================================================== *)

Lemma rbind_Ok {A B} (r : result A) (k : A -> result B) (b : B) :
  rbind r k = Ok b <-> exists a, r = Ok a /\ k a = Ok b.
Proof.
  split.
  - destruct r as [a|e]; simpl; [eauto|discriminate].
  - intros [a [-> H]]. exact H.
Qed.

Section opening.
Import geom.
Local Open Scope R_scope.

Variable ReadImage : string -> result sitk.Image.
Variable window_image : sitk.Image -> R -> result sitk.Image.
Variable ReadImageInformation : string -> result (gmap string string).
Variable xml2dict : string -> result py.pyval.

Lemma det_z_mirror : det rigid.z_mirror = -1.
Proof. unfold det, rigid.z_mirror. lra. Qed.

Lemma orthonormal_z_mirror : orthonormal rigid.z_mirror.
Proof.
  unfold orthonormal, mmul, transpose, rigid.z_mirror, dot, identity.
  repeat f_equal; lra.
Qed.

Lemma SetDirection_z_mirror (img : sitk.Image) :
  sitk.SetDirection img [1; 0; 0; 0; 1; 0; 0; 0; -1] =
  Ok {| sitk.pixels := sitk.pixels img; sitk.spacing := sitk.spacing img;
        sitk.origin := sitk.origin img; sitk.direction := rigid.z_mirror |}.
Proof.
  unfold sitk.SetDirection. cbn [mat_of_list].
  destruct (Req_dec_T _ 0) as [H|H]; [|reflexivity].
  exfalso. unfold det in H. lra.
Qed.

Lemma SetSpacing_Ok img s img' :
  sitk.SetSpacing img s = Ok img' <->
  exists v, sitk.spacing_of_list s = Some v /\
    img' = {| sitk.pixels := sitk.pixels img; sitk.spacing := v;
              sitk.origin := sitk.origin img;
              sitk.direction := sitk.direction img |}.
Proof.
  unfold sitk.SetSpacing. destruct (sitk.spacing_of_list s) as [v|]; split.
  - intros H. inversion H. eauto.
  - intros [v' [Hv ->]]. inversion Hv. reflexivity.
  - discriminate.
  - intros [v' [Hv _]]. discriminate.
Qed.

Lemma SetOrigin_Ok img o img' :
  sitk.SetOrigin img o = Ok img' <->
  exists v, vec_of_list o = Some v /\
    img' = {| sitk.pixels := sitk.pixels img; sitk.spacing := sitk.spacing img;
              sitk.origin := v; sitk.direction := sitk.direction img |}.
Proof.
  unfold sitk.SetOrigin. destruct (vec_of_list o) as [v|]; split.
  - intros H. inversion H. eauto.
  - intros [v' [Hv ->]]. inversion Hv. reflexivity.
  - discriminate.
  - intros [v' [Hv _]]. discriminate.
Qed.

Lemma list_of_vec_of_list l v : vec_of_list l = Some v -> list_of_vec v = take 3 l.
Proof.
  destruct l as [|a [|b [|c l]]]; simpl; try discriminate.
  intros H. inversion H. reflexivity.
Qed.

Lemma vec_of_list_length l : (3 <= length l)%nat -> exists v, vec_of_list l = Some v.
Proof.
  destruct l as [|a [|b [|c l]]]; simpl; try lia. eauto.
Qed.

Lemma vec_of_list_short l : (length l < 3)%nat <-> vec_of_list l = None.
Proof.
  destruct l as [|a [|b [|c l]]]; simpl; split; intros H;
    solve [reflexivity | lia | discriminate].
Qed.

Lemma take_3_length (l : list R) : length l = 3%nat -> take 3 l = l.
Proof. intros H. apply take_ge. lia. Qed.

Lemma spacing_of_list_pos a b c l :
  0 < a -> 0 < b -> 0 < c ->
  sitk.spacing_of_list (a :: b :: c :: l) = Some (a, b, c).
Proof.
  intros Ha Hb Hc. unfold sitk.spacing_of_list. cbn [vec_of_list].
  destruct (Rlt_dec 0 a); [|contradiction].
  destruct (Rlt_dec 0 b); [|contradiction].
  destruct (Rlt_dec 0 c); [|contradiction].
  reflexivity.
Qed.

(** The accepted spacing is the first three components, all positive. *)
Lemma spacing_of_list_Some l v :
  sitk.spacing_of_list l = Some v ->
  vec_of_list l = Some v /\ Forall (fun s => 0 < s) (list_of_vec v).
Proof.
  unfold sitk.spacing_of_list.
  destruct (vec_of_list l) as [[[a b] c]|]; [|discriminate].
  destruct (Rlt_dec 0 a); [|discriminate].
  destruct (Rlt_dec 0 b); [|discriminate].
  destruct (Rlt_dec 0 c); [|discriminate].
  intros H. inversion H. split; [reflexivity|].
  simpl. repeat constructor; assumption.
Qed.

Lemma spacing_of_list_None l :
  sitk.spacing_of_list l = None <->
  (length l < 3)%nat \/ Exists (fun s => s <= 0) (take 3 l).
Proof.
  unfold sitk.spacing_of_list.
  destruct l as [|a [|b [|c l]]]; cbn [vec_of_list length take];
    try (split; [intros _; left; lia | reflexivity]).
  destruct (Rlt_dec 0 a) as [Ha|Ha]; [|split; [intros _|reflexivity]].
  2:{ right. apply Exists_cons_hd. lra. }
  destruct (Rlt_dec 0 b) as [Hb|Hb]; [|split; [intros _|reflexivity]].
  2:{ right. apply Exists_cons_tl, Exists_cons_hd. lra. }
  destruct (Rlt_dec 0 c) as [Hc|Hc]; [|split; [intros _|reflexivity]].
  2:{ right. apply Exists_cons_tl, Exists_cons_tl, Exists_cons_hd. lra. }
  split; [discriminate|].
  intros [H|H]; [simpl in H; lia|].
  exfalso.
  apply Exists_cons in H as [H|H]; [lra|].
  apply Exists_cons in H as [H|H]; [lra|].
  apply Exists_cons in H as [H|H]; [lra|].
  apply Exists_nil in H. exact H.
Qed.

Lemma spacing_of_list_length l :
  length l = 3%nat -> Forall (fun s => 0 < s) l ->
  exists v, sitk.spacing_of_list l = Some v.
Proof.
  destruct l as [|a [|b [|c [|]]]]; simpl; try discriminate.
  intros _ H.
  apply Forall_cons in H as [Ha H].
  apply Forall_cons in H as [Hb H].
  apply Forall_cons in H as [Hc _].
  exists (a, b, c). apply spacing_of_list_pos; assumption.
Qed.

(** [open_us] succeeds exactly when the file is read, the windowing
    succeeds, the spacing is accepted and the origin has three components;
    the image it returns is then known field by field. *)
Lemma open_us_Ok us_path dynamic_range spacing origin img :
  open_us ReadImage window_image us_path dynamic_range spacing origin = Ok img <->
  exists raw windowed s o,
    ReadImage us_path = Ok raw /\
    window_image raw dynamic_range = Ok windowed /\
    sitk.spacing_of_list spacing = Some s /\
    vec_of_list origin = Some o /\
    img = {| sitk.pixels := views.quarter_turn (sitk.pixels windowed);
             sitk.spacing := s; sitk.origin := o;
             sitk.direction := rigid.z_mirror |}.
Proof.
  unfold open_us. split.
  - intros H.
    apply rbind_Ok in H as [raw [Hraw H]].
    apply rbind_Ok in H as [windowed [Hw H]].
    rewrite rotate_axes_eq in H. cbn [rbind] in H.
    apply rbind_Ok in H as [i1 [H1 H]].
    apply rbind_Ok in H as [i2 [H2 H]].
    rewrite SetDirection_z_mirror in H. cbn [rbind] in H.
    apply SetSpacing_Ok in H1 as [s [Hs ->]].
    apply SetOrigin_Ok in H2 as [o [Ho ->]].
    inversion H. exists raw, windowed, s, o. repeat split; assumption || reflexivity.
  - intros [raw [windowed [s [o [Hraw [Hw [Hs [Ho ->]]]]]]]].
    rewrite Hraw. cbn [rbind]. rewrite Hw. cbn [rbind].
    rewrite rotate_axes_eq. cbn [rbind].
    unfold sitk.SetSpacing. rewrite Hs. cbn [rbind].
    unfold sitk.SetOrigin. rewrite Ho. cbn [rbind].
    rewrite SetDirection_z_mirror. reflexivity.
Qed.

Lemma open_mpm_Ok mpm_path mpm_origin_path mpm_spacing img :
  open_mpm ReadImage ReadImageInformation xml2dict mpm_path mpm_origin_path
    mpm_spacing = Ok img <->
  exists positions origin raw s o,
    positions_from_ometif ReadImageInformation xml2dict mpm_origin_path
      = Ok positions /\
    np.min0 positions = Ok origin /\
    ReadImage mpm_path = Ok raw /\
    sitk.spacing_of_list mpm_spacing = Some s /\
    vec_of_list origin = Some o /\
    img = {| sitk.pixels := sitk.pixels raw;
             sitk.spacing := s; sitk.origin := o;
             sitk.direction := rigid.z_mirror |}.
Proof.
  unfold open_mpm. split.
  - intros H.
    apply rbind_Ok in H as [positions [Hp H]].
    apply rbind_Ok in H as [origin [Hmin H]].
    apply rbind_Ok in H as [raw [Hraw H]].
    apply rbind_Ok in H as [i1 [H1 H]].
    apply rbind_Ok in H as [i2 [H2 H]].
    rewrite SetDirection_z_mirror in H. cbn [rbind] in H.
    apply SetSpacing_Ok in H1 as [s [Hs ->]].
    apply SetOrigin_Ok in H2 as [o [Ho ->]].
    inversion H. exists positions, origin, raw, s, o. repeat split; assumption || reflexivity.
  - intros [positions [origin [raw [s [o [Hp [Hmin [Hraw [Hs [Ho ->]]]]]]]]]].
    rewrite Hp. cbn [rbind]. rewrite Hmin. cbn [rbind].
    rewrite Hraw. cbn [rbind].
    unfold sitk.SetSpacing. rewrite Hs. cbn [rbind].
    unfold sitk.SetOrigin. rewrite Ho. cbn [rbind].
    rewrite SetDirection_z_mirror. reflexivity.
Qed.

End opening.


Section opening_claims.
Import geom.
Local Open Scope R_scope.

Variable ReadImage : string -> result sitk.Image.
Variable window_image : sitk.Image -> R -> result sitk.Image.
Variable ReadImageInformation : string -> result (gmap string string).
Variable xml2dict : string -> result py.pyval.

(** C5. An image returned by [open_us] or by [open_mpm] has the direction
    [1 0 0; 0 1 0; 0 0 -1], the mirror of the z axis, which is orthonormal
    and has determinant -1. *)
Theorem open_direction_z_mirror (img : sitk.Image) :
  (exists us_path dynamic_range spacing origin,
     open_us ReadImage window_image us_path dynamic_range spacing origin
       = Ok img) \/
  (exists mpm_path mpm_origin_path mpm_spacing,
     open_mpm ReadImage ReadImageInformation xml2dict mpm_path mpm_origin_path
       mpm_spacing = Ok img) ->
  sitk.GetDirection img = [1; 0; 0; 0; 1; 0; 0; 0; -1] /\
  sitk.direction img = rigid.z_mirror /\
  orthonormal (sitk.direction img) /\
  det (sitk.direction img) = -1.
Proof.
  intros H.
  assert (Hd : sitk.direction img = rigid.z_mirror).
  { destruct H as [[p [dr [sp [og H]]]]|[p [op [sp H]]]].
    - apply (open_us_Ok ReadImage window_image) in H
        as [raw [w [s [o [_ [_ [_ [_ ->]]]]]]]].
      reflexivity.
    - apply (open_mpm_Ok ReadImage ReadImageInformation xml2dict) in H
        as [ps [og [raw [s [o [_ [_ [_ [_ [_ ->]]]]]]]]]].
      reflexivity. }
  unfold sitk.GetDirection. rewrite Hd.
  split; [reflexivity|]. split; [reflexivity|].
  split; [apply orthonormal_z_mirror|apply det_z_mirror].
Qed.

(** C6. A spacing of three strictly positive components given to [open_us]
    or to [open_mpm] is the spacing of the image returned, whatever spacing
    the file carried; and [open_us] does return an image as soon as the file
    is read, the windowing succeeds and the origin has three components. *)
Theorem open_spacing_preserved (spacing : list R) :
  length spacing = 3%nat ->
  Forall (fun s => 0 < s) spacing ->
  (forall us_path dynamic_range origin raw windowed,
     ReadImage us_path = Ok raw ->
     window_image raw dynamic_range = Ok windowed ->
     length origin = 3%nat ->
     exists img,
       open_us ReadImage window_image us_path dynamic_range spacing origin
         = Ok img) /\
  (forall us_path dynamic_range origin img,
     open_us ReadImage window_image us_path dynamic_range spacing origin
       = Ok img ->
     sitk.GetSpacing img = spacing /\
     Forall (fun s => 0 < s) (sitk.GetSpacing img)) /\
  (forall mpm_path mpm_origin_path img,
     open_mpm ReadImage ReadImageInformation xml2dict mpm_path mpm_origin_path
       spacing = Ok img ->
     sitk.GetSpacing img = spacing /\
     Forall (fun s => 0 < s) (sitk.GetSpacing img)).
Proof.
  intros Hlen Hpos. split; [|split].
  - intros p dr og raw w Hraw Hw Hog.
    destruct (spacing_of_list_length spacing Hlen Hpos) as [s Hs].
    destruct (vec_of_list_length og) as [o Ho]; [lia|].
    eexists. apply open_us_Ok. exists raw, w, s, o. auto.
  - intros p dr og img H.
    apply (open_us_Ok ReadImage window_image) in H
      as [raw [w [s [o [_ [_ [Hs [_ ->]]]]]]]].
    unfold sitk.GetSpacing. cbn [sitk.spacing].
    apply spacing_of_list_Some in Hs as [Hs _].
    rewrite (list_of_vec_of_list _ _ Hs), (take_3_length _ Hlen). auto.
  - intros p op img H.
    apply (open_mpm_Ok ReadImage ReadImageInformation xml2dict) in H
      as [ps [og [raw [s [o [_ [_ [_ [Hs [_ ->]]]]]]]]]].
    unfold sitk.GetSpacing. cbn [sitk.spacing].
    apply spacing_of_list_Some in Hs as [Hs _].
    rewrite (list_of_vec_of_list _ _ Hs), (take_3_length _ Hlen). auto.
Qed.

(** C10. In an image returned by [open_us] every sample is an unsigned
    8-bit integer, whatever the sample type of the image that entered the
    cast: a voxel is the low eight bits of the voxel of the windowed image at
    the rotated position, so a value outside 0..255 is not kept. *)
Theorem open_us_cast_uint8 us_path dynamic_range spacing origin (img : sitk.Image) :
  open_us ReadImage window_image us_path dynamic_range spacing origin = Ok img ->
  sitk.GetPixelID img = sitk.sitkUInt8 /\
  (forall x y z v, sitk.GetPixel img x y z = Ok v -> (0 <= v <= 255)%Z) /\
  exists raw windowed,
    ReadImage us_path = Ok raw /\
    window_image raw dynamic_range = Ok windowed /\
    forall d0 d1 d2,
      np.wf (sitk.pixels windowed) ->
      np.shape (sitk.pixels windowed) = (d0, d1, d2) ->
      forall i j k, (i < d1)%nat -> (j < d0)%nat -> (k < d2)%nat ->
        exists v,
          np.item (sitk.pixels windowed) j (d1 - 1 - i) k = Ok v /\
          np.item (sitk.pixels img) i j k = Ok (v mod 256)%Z /\
          (v mod 256 = Z.land v 255)%Z.
Proof.
  intros H.
  apply (open_us_Ok ReadImage window_image) in H
    as [raw [w [s [o [Hraw [Hw [_ [_ ->]]]]]]]].
  split.
  { unfold sitk.GetPixelID, views.quarter_turn. cbn [sitk.pixels].
    destruct (np.shape (sitk.pixels w)) as [[d0 d1] d2].
    rewrite dt_of_fun. reflexivity. }
  split.
  { intros x y z v. unfold sitk.GetPixel, views.quarter_turn.
    cbn [sitk.pixels].
    destruct (np.shape (sitk.pixels w)) as [[d0 d1] d2].
    intros Hv. apply item_of_fun_inv in Hv as [_ [_ [_ ->]]].
    pose proof (wrap_uint8_range (np.get (sitk.pixels w) y (d1 - 1 - z) x)).
    lia. }
  exists raw, w. split; [exact Hraw|]. split; [exact Hw|].
  intros d0 d1 d2 Hwf Hs i j k Hi Hj Hk.
  exists (np.get (sitk.pixels w) j (d1 - 1 - i) k).
  split.
  { apply item_get; [exact Hwf|rewrite Hs; simpl; lia..]. }
  cbn [sitk.pixels]. unfold views.quarter_turn. rewrite Hs.
  rewrite item_of_fun by assumption.
  split; [reflexivity|].
  change 255%Z with (Z.ones 8). rewrite Z.land_ones by lia. reflexivity.
Qed.

End opening_claims.


Section opening_witnesses.
Import geom.
Local Open Scope R_scope.

Lemma sample_open_us :
  exists img,
    open_us samples.ReadImage samples.window_image "us.tif" 50 [25; 25; 25]
      [0; 0; 4] = Ok img.
Proof.
  eexists. apply open_us_Ok.
  exists samples.bright_voxel, samples.bright_voxel, (25, 25, 25), (0, 0, 4).
  repeat split; try reflexivity.
  apply spacing_of_list_pos; lra.
Qed.

Lemma sample_positions :
  positions_from_ometif samples.ReadImageInformation samples.xml2dict
    "tile.ome.tif" = Ok (np.Float2 [[5; 7; 3]]).
Proof. vm_compute. reflexivity. Qed.

Lemma sample_open_mpm :
  exists img,
    open_mpm samples.ReadImage samples.ReadImageInformation samples.xml2dict
      "mpm.tif" "tile.ome.tif" [8.16; 8.16; 8.16] = Ok img.
Proof.
  eexists. apply open_mpm_Ok.
  exists (np.Float2 [[5; 7; 3]]), [5; 7; 3], samples.two_voxels,
    (8.16, 8.16, 8.16), (5, 7, 3).
  repeat split;
    solve [apply sample_positions | reflexivity | apply spacing_of_list_pos; lra].
Qed.

Lemma open_direction_z_mirror_witness :
  (exists img,
     open_us samples.ReadImage samples.window_image "us.tif" 50 [25; 25; 25]
       [0; 0; 4] = Ok img /\
     sitk.GetDirection img = [1; 0; 0; 0; 1; 0; 0; 0; -1]) /\
  (exists img,
     open_mpm samples.ReadImage samples.ReadImageInformation samples.xml2dict
       "mpm.tif" "tile.ome.tif" [8.16; 8.16; 8.16] = Ok img /\
     sitk.GetDirection img = [1; 0; 0; 0; 1; 0; 0; 0; -1]).
Proof.
  split.
  - destruct sample_open_us as [img H]. exists img. split; [exact H|].
    apply (open_direction_z_mirror samples.ReadImage samples.window_image
             samples.ReadImageInformation samples.xml2dict img).
    left. eauto.
  - destruct sample_open_mpm as [img H]. exists img. split; [exact H|].
    apply (open_direction_z_mirror samples.ReadImage samples.window_image
             samples.ReadImageInformation samples.xml2dict img).
    right. eauto.
Defined.

Lemma open_spacing_preserved_witness :
  exists img,
    open_us samples.ReadImage samples.window_image "us.tif" 50 [25; 25; 25]
      [0; 0; 4] = Ok img /\
    sitk.GetSpacing img = [25; 25; 25].
Proof.
  destruct (open_spacing_preserved samples.ReadImage samples.window_image
              samples.ReadImageInformation samples.xml2dict [25; 25; 25])
    as [Hrun [Hus _]].
  - reflexivity.
  - repeat constructor; lra.
  - destruct (Hrun "us.tif"%string 50 [0; 0; 4] samples.bright_voxel
                samples.bright_voxel) as [img H]; try reflexivity.
    exists img. split; [exact H|].
    exact (proj1 (Hus _ _ _ _ H)).
Defined.

Lemma open_us_cast_uint8_witness :
  exists img,
    open_us samples.ReadImage samples.window_image "us.tif" 50 [25; 25; 25]
      [0; 0; 4] = Ok img /\
    sitk.GetPixelID img = sitk.sitkUInt8 /\
    np.item (sitk.pixels samples.bright_voxel) 0 0 0 = Ok 300%Z /\
    np.item (sitk.pixels img) 0 0 0 = Ok 44%Z.
Proof.
  destruct sample_open_us as [img H]. exists img. split; [exact H|].
  destruct (open_us_cast_uint8 samples.ReadImage samples.window_image
              _ _ _ _ img H) as [Hid [_ [raw [w [Hraw [Hw Hvox]]]]]].
  split; [exact Hid|]. split; [reflexivity|].
  vm_compute in Hraw. inversion Hraw; subst raw.
  vm_compute in Hw. inversion Hw; subst w.
  destruct (Hvox 1%nat 1%nat 1%nat) with (i := 0%nat) (j := 0%nat) (k := 0%nat)
    as [v [Hv [Ho _]]]; try lia.
  - simpl. repeat constructor.
  - reflexivity.
  - change (np.item (sitk.pixels samples.bright_voxel) 0 0 0) with (Ok (A := Z) 300%Z) in Hv.
    inversion Hv; subst v. exact Ho.
Defined.

End opening_witnesses.

(* ===================================================================== *)
(** ** The origin of the ultrasound grid (C4) *)
(* ===================================================================== *)

Section origin_claims.
Import views.
Local Open Scope R_scope.

Lemma least_cons_min (m x a : R) (l : list R) :
  least m (Rmin x a :: l) -> least m (x :: a :: l).
Proof.
  intros [Hin Hle]. split.
  - apply elem_of_cons in Hin as [->|Hin].
    + unfold Rmin. destruct (Rle_dec x a); [left|right; left].
    + do 2 right. exact Hin.
  - intros v Hv.
    assert (Hm : m <= Rmin x a) by (apply Hle; left).
    apply elem_of_cons in Hv as [->|Hv].
    { pose proof (Rmin_l x a). lra. }
    apply elem_of_cons in Hv as [->|Hv].
    { pose proof (Rmin_r x a). lra. }
    apply Hle. right. exact Hv.
Qed.

Lemma fold_minimum_pairs (rest : list (list R)) (x y : R) :
  Forall (fun r => length r = 2%nat) rest ->
  exists mx my,
    fold_left np.minimum rest [x; y] = [mx; my] /\
    least mx (x :: column 0 rest) /\
    least my (y :: column 1 rest).
Proof.
  revert x y. induction rest as [|r rest IH]; intros x y Hall.
  - exists x, y. split; [reflexivity|].
    split; (split; [left|intros v Hv; apply list_elem_of_singleton in Hv; lra]).
  - apply Forall_cons in Hall as [Hr Hall].
    destruct r as [|a [|b [|]]]; try discriminate.
    destruct (IH (Rmin x a) (Rmin y b) Hall) as [mx [my [Hfold [Hx Hy]]]].
    exists mx, my. split; [exact Hfold|].
    split; apply least_cons_min; assumption.
Qed.

Variable read_json : string -> result py.pyval.
Variable clean_position_text : py.pyval -> result (np.array2 * py.pyval).

(** C4. When the position list parsed from the file is a non-empty table of
    (x, y) pairs, [get_xy_origin] returns the pair made of the least x and
    the least y of the table. *)
Theorem get_xy_origin_minimum (pl_path : string) (raw rest : py.pyval)
    (rows : list (list R)) :
  read_json pl_path = Ok raw ->
  clean_position_text raw = Ok (np.Float2 rows, rest) ->
  rows <> [] ->
  Forall (fun r => length r = 2%nat) rows ->
  exists mx my,
    get_xy_origin read_json clean_position_text pl_path = Ok [mx; my] /\
    least mx (column 0 rows) /\
    least my (column 1 rows).
Proof.
  intros Hraw Hclean Hne Hall.
  unfold get_xy_origin. rewrite Hraw. cbn [rbind]. rewrite Hclean. cbn [rbind fst].
  destruct rows as [|r rows]; [congruence|].
  apply Forall_cons in Hall as [Hr Hall].
  destruct r as [|x [|y [|]]]; try discriminate.
  destruct (fold_minimum_pairs rows x y Hall) as [mx [my [Hfold [Hx Hy]]]].
  exists mx, my. cbn [np.min0 rbind]. rewrite Hfold.
  split; [reflexivity|]. split; assumption.
Qed.

End origin_claims.

Lemma get_xy_origin_minimum_witness :
  get_xy_origin (fun _ => Ok py.PNone)
    (fun _ => Ok (np.Float2 [[1; 5]; [3; 2]; [0; 9]]%R, py.PNone))
    "2019-05-04_US - 3X 100YSep.pos" = Ok [0; 2]%R.
Proof.
  destruct (get_xy_origin_minimum (fun _ => Ok py.PNone)
              (fun _ => Ok (np.Float2 [[1; 5]; [3; 2]; [0; 9]]%R, py.PNone))
              "2019-05-04_US - 3X 100YSep.pos" py.PNone py.PNone
              [[1; 5]; [3; 2]; [0; 9]]%R)
    as [mx [my [Hrun [[Hxin Hxle] [Hyin Hyle]]]]].
  - reflexivity.
  - reflexivity.
  - discriminate.
  - repeat constructor.
  - rewrite Hrun.
    assert (Hx0 : (mx <= 0)%R) by (apply Hxle; simpl; do 2 right; left).
    assert (Hy2 : (my <= 2)%R) by (apply Hyle; simpl; right; left).
    simpl in Hxin, Hyin.
    assert (mx = 0%R) as ->.
    { repeat (apply elem_of_cons in Hxin as [->|Hxin]); try lra.
      apply elem_of_nil in Hxin. contradiction. }
    assert (my = 2%R) as ->.
    { repeat (apply elem_of_cons in Hyin as [->|Hyin]); try lra.
      apply elem_of_nil in Hyin. contradiction. }
    reflexivity.
Defined.

(* ===================================================================== *)
(** ** Reading a descriptor with a missing field *)
(* ===================================================================== *)

Section metadata_claims.
Import py ome.

Lemma getitem_field v k x : field v k = Some x -> getitem v (KStr k) = Ok x.
Proof. destruct v; simpl; try discriminate. intros ->. reflexivity. Qed.

Lemma getitem_lacks v k : lacks v k -> raises (getitem v (KStr k)).
Proof.
  unfold lacks, raises. destruct v; simpl; eauto.
  intros ->. eauto.
Qed.

Lemma raises_bind {A B} (r : result A) (k : A -> result B) :
  raises r -> raises (rbind r k).
Proof. intros [e ->]. exists e. reflexivity. Qed.

Lemma position_of_lacks p : tile_lacks p -> raises (position_of p).
Proof.
  unfold position_of.
  intros [H|sl Hsl H|sl Hsl H|H|px Hpx H|px pl e Hpx Hpl H|px pl p0 Hpx Hpl Hp0 H].
  - apply raises_bind, getitem_lacks, H.
  - rewrite (getitem_field _ _ _ Hsl). cbn [rbind].
    apply raises_bind, getitem_lacks, H.
  - rewrite (getitem_field _ _ _ Hsl). cbn [rbind].
    destruct (getitem sl (KStr "X")) as [x|e]; [|exists e; reflexivity].
    cbn [rbind]. apply raises_bind, getitem_lacks, H.
  - destruct (getitem p (KStr "StageLabel")) as [sl|e]; [|exists e; reflexivity].
    cbn [rbind].
    destruct (getitem sl (KStr "X")) as [x|e]; [|exists e; reflexivity].
    cbn [rbind].
    destruct (getitem sl (KStr "Y")) as [y|e]; [|exists e; reflexivity].
    cbn [rbind]. apply raises_bind, getitem_lacks, H.
  - destruct (getitem p (KStr "StageLabel")) as [sl|e]; [|exists e; reflexivity].
    cbn [rbind].
    destruct (getitem sl (KStr "X")) as [x|e]; [|exists e; reflexivity].
    cbn [rbind].
    destruct (getitem sl (KStr "Y")) as [y|e]; [|exists e; reflexivity].
    cbn [rbind]. rewrite (getitem_field _ _ _ Hpx). cbn [rbind].
    apply raises_bind, getitem_lacks, H.
  - destruct (getitem p (KStr "StageLabel")) as [sl|e']; [|exists e'; reflexivity].
    cbn [rbind].
    destruct (getitem sl (KStr "X")) as [x|e']; [|exists e'; reflexivity].
    cbn [rbind].
    destruct (getitem sl (KStr "Y")) as [y|e']; [|exists e'; reflexivity].
    cbn [rbind]. rewrite (getitem_field _ _ _ Hpx). cbn [rbind].
    rewrite (getitem_field _ _ _ Hpl). cbn [rbind].
    rewrite H. exists e. reflexivity.
  - destruct (getitem p (KStr "StageLabel")) as [sl|e]; [|exists e; reflexivity].
    cbn [rbind].
    destruct (getitem sl (KStr "X")) as [x|e]; [|exists e; reflexivity].
    cbn [rbind].
    destruct (getitem sl (KStr "Y")) as [y|e]; [|exists e; reflexivity].
    cbn [rbind]. rewrite (getitem_field _ _ _ Hpx). cbn [rbind].
    rewrite (getitem_field _ _ _ Hpl). cbn [rbind].
    rewrite Hp0. cbn [rbind].
    apply raises_bind, getitem_lacks, H.
Qed.

(** The loop stops at the first tile that cannot be read: nothing gathered
    so far is returned. *)
Lemma positions_loop_lacks todo p acc :
  p ∈ todo -> tile_lacks p -> raises (positions_loop todo acc).
Proof.
  intros Hin Hp. revert acc.
  induction todo as [|q todo IH]; intros acc.
  - apply elem_of_nil in Hin. contradiction.
  - cbn [positions_loop].
    apply elem_of_cons in Hin as [<-|Hin].
    + apply raises_bind, position_of_lacks, Hp.
    + destruct (position_of q) as [row|e]; [|exists e; reflexivity].
      cbn [rbind]. apply IH, Hin.
Qed.

Variable ReadImageInformation : string -> result (gmap string string).
Variable xml2dict : string -> result py.pyval.

Lemma positions_from_ometif_lacks file_path md text info :
  ReadImageInformation file_path = Ok md ->
  md !! "ImageDescription" = Some text ->
  xml2dict text = Ok info ->
  descriptor_lacks info ->
  raises (positions_from_ometif ReadImageInformation xml2dict file_path).
Proof.
  intros Hmd Htext Hinfo Hlacks.
  unfold positions_from_ometif. rewrite Hmd. cbn [rbind].
  unfold GetMetaData. rewrite Htext. cbn [rbind]. rewrite Hinfo. cbn [rbind].
  destruct Hlacks as [H|o Ho H|o images todo p Ho Himages Htodo Hin Hp].
  - apply raises_bind, getitem_lacks, H.
  - rewrite (getitem_field _ _ _ Ho). cbn [rbind].
    apply raises_bind, getitem_lacks, H.
  - rewrite (getitem_field _ _ _ Ho). cbn [rbind].
    rewrite (getitem_field _ _ _ Himages). cbn [rbind].
    rewrite Htodo. cbn [rbind].
    apply raises_bind, (positions_loop_lacks todo p); assumption.
Qed.

(** X17. A descriptor in which a field read by [positions_from_ometif] is
    missing (OME, Image, StageLabel, X, Y, Pixels, Plane, its first element,
    PositionZ) makes it raise, and so does a descriptor that the XML reader
    rejects, with the exception of the reader; nothing is returned for the
    tiles already visited. *)
Theorem positions_from_ometif_missing_field (file_path : string) :
  (forall md text e,
     ReadImageInformation file_path = Ok md ->
     md !! "ImageDescription" = Some text ->
     xml2dict text = Raise e ->
     positions_from_ometif ReadImageInformation xml2dict file_path = Raise e) /\
  (forall md text info,
     ReadImageInformation file_path = Ok md ->
     md !! "ImageDescription" = Some text ->
     xml2dict text = Ok info ->
     descriptor_lacks info ->
     raises (positions_from_ometif ReadImageInformation xml2dict file_path)).
Proof.
  split.
  - intros md text e Hmd Htext He.
    unfold positions_from_ometif. rewrite Hmd. cbn [rbind].
    unfold GetMetaData. rewrite Htext. cbn [rbind]. rewrite He. reflexivity.
  - apply positions_from_ometif_lacks.
Qed.

End metadata_claims.

Lemma positions_from_ometif_missing_field_witness :
  raises (positions_from_ometif samples.ReadImageInformation
            samples.xml2dict_without_Y "tile.ome.tif").
Proof.
  destruct (positions_from_ometif_missing_field samples.ReadImageInformation
              samples.xml2dict_without_Y "tile.ome.tif") as [_ Home].
  apply (Home (<["ImageDescription" := "<OME/>"]> ∅) "<OME/>"%string
           (samples.descriptor [samples.tile 5 7 3; samples.tile_without_Y 6 3]));
    try reflexivity.
  apply (ome.in_tile _
           (py.PDict (<["Image" := py.PList [samples.tile 5 7 3;
                                             samples.tile_without_Y 6 3]]> ∅))
           (py.PList [samples.tile 5 7 3; samples.tile_without_Y 6 3])
           [samples.tile 5 7 3; samples.tile_without_Y 6 3]
           (samples.tile_without_Y 6 3)); try reflexivity.
  + right. left.
  + apply (ome.no_Y _ (py.PDict (<["X" := py.PNum 6]> ∅))); reflexivity.
Defined.
(* ===================================================================== *)
(** ** Rotations of unit quaternions *)
(* ===================================================================== *)

Section rigid_facts.
Import geom.
Local Open Scope R_scope.

Lemma vec_eq (a b c a' b' c' : R) :
  a = a' -> b = b' -> c = c' -> (a, b, c) = (a', b', c').
Proof. intros -> -> ->. reflexivity. Qed.

Lemma mat_eq (r0 r1 r2 r0' r1' r2' : vec) :
  r0 = r0' -> r1 = r1' -> r2 = r2' -> (r0, r1, r2) = (r0', r1', r2').
Proof. intros -> -> ->. reflexivity. Qed.

Ltac vec_destruct :=
  repeat match goal with
         | m : mat |- _ => destruct m as [[[[? ?] ?] [[? ?] ?]] [[? ?] ?]]
         | v : vec |- _ => destruct v as [[? ?] ?]
         end;
  unfold mmul, transpose, mulv, dot, vadd, vsub, vopp, identity in *;
  cbn [fst snd] in *.

Ltac vec_ring := vec_destruct; apply vec_eq; ring.

Lemma mulv_vadd (m : mat) (u v : vec) :
  mulv m (vadd u v) = vadd (mulv m u) (mulv m v).
Proof. vec_ring. Qed.

Lemma mulv_vopp (m : mat) (v : vec) : mulv m (vopp v) = vopp (mulv m v).
Proof. vec_ring. Qed.

Lemma mulv_mmul (m n : mat) (v : vec) : mulv (mmul m n) v = mulv m (mulv n v).
Proof. vec_ring. Qed.

Lemma mulv_identity (v : vec) : mulv identity v = v.
Proof. vec_ring. Qed.

Lemma vadd_vopp_r (u v : vec) : vadd (vadd u v) (vopp v) = u.
Proof. vec_ring. Qed.

Lemma vadd_vopp_l (u v : vec) : vadd (vadd u (vopp v)) v = u.
Proof. vec_ring. Qed.

Lemma vsub_zero (v : vec) : vsub v (0, 0, 0) = v.
Proof. vec_ring. Qed.

Lemma vadd_zero_r (v : vec) : vadd v (0, 0, 0) = v.
Proof. vec_ring. Qed.

Lemma vsub_shift (a u v : vec) :
  vsub (vadd a (vopp u)) (vadd a (vopp v)) = vsub v u.
Proof. vec_ring. Qed.

Lemma vadd_cancel_l (a u v : vec) : vadd a u = vadd a v -> u = v.
Proof.
  vec_destruct. intros H. inversion H. apply vec_eq; lra.
Qed.

Lemma vadd_fixed (x u v : vec) : vadd (vadd x u) (vopp v) = x <-> u = v.
Proof.
  vec_destruct. split; intros H; inversion H.
  - apply vec_eq; lra.
  - apply vec_eq; lra.
Qed.

(** *** The rotation of a unit quaternion *)

Lemma rotation_conjugate (x y z w : R) :
  sitk.rotation_of (-1 * x, -1 * y, -1 * z, w) =
  transpose (sitk.rotation_of (x, y, z, w)).
Proof.
  unfold sitk.rotation_of, transpose.
  apply mat_eq; apply vec_eq; ring.
Qed.

Lemma rotation_orthonormal (x y z w : R) :
  w * w = 1 - (x * x + y * y + z * z) ->
  mmul (sitk.rotation_of (x, y, z, w)) (transpose (sitk.rotation_of (x, y, z, w)))
  = identity.
Proof.
  intros Hw. unfold sitk.rotation_of, mmul, transpose, dot, identity.
  apply mat_eq; apply vec_eq; nsatz.
Qed.

Lemma rotation_orthonormal_l (x y z w : R) :
  w * w = 1 - (x * x + y * y + z * z) ->
  mmul (transpose (sitk.rotation_of (x, y, z, w))) (sitk.rotation_of (x, y, z, w))
  = identity.
Proof.
  intros Hw. unfold sitk.rotation_of, mmul, transpose, dot, identity.
  apply mat_eq; apply vec_eq; nsatz.
Qed.

Lemma rotation_det (x y z w : R) :
  w * w = 1 - (x * x + y * y + z * z) ->
  det (sitk.rotation_of (x, y, z, w)) = 1.
Proof. intros Hw. unfold sitk.rotation_of, det. nsatz. Qed.

Lemma rotation_inverse (x y z w : R) :
  w * w = 1 - (x * x + y * y + z * z) ->
  inverse (sitk.rotation_of (x, y, z, w)) =
  transpose (sitk.rotation_of (x, y, z, w)).
Proof.
  intros Hw. pose proof (rotation_det x y z w Hw) as Hdet.
  unfold inverse. unfold sitk.rotation_of in *. rewrite Hdet, Rinv_1.
  unfold transpose. apply mat_eq; apply vec_eq; nsatz.
Qed.


(** *** Transforms built from a parameter vector *)

Lemma epsilon_pos : 0 < sitk.epsilon.
Proof. unfold sitk.epsilon. lra. Qed.

(** What [SetParameters] stores for a vector of six components or more and
    for its negation: the first three components divided by the same positive
    number, with a fourth component that makes the versor a unit quaternion. *)
Lemma SetParameters_scaled (a b c tx ty tz : R) (rest : list R) :
  exists s w,
    0 < s /\
    w * w = 1 - (a / s * (a / s) + b / s * (b / s) + c / s * (c / s)) /\
    sitk.SetParameters sitk.VersorRigid3DTransform_new
      (a :: b :: c :: tx :: ty :: tz :: rest) =
      Ok {| sitk.versor := (a / s, b / s, c / s, w);
            sitk.translation := (tx, ty, tz);
            sitk.center := (0, 0, 0) |} /\
    sitk.SetParameters sitk.VersorRigid3DTransform_new
      (np.scale (-1) (a :: b :: c :: tx :: ty :: tz :: rest)) =
      Ok {| sitk.versor := (-1 * (a / s), -1 * (b / s), -1 * (c / s), w);
            sitk.translation := (-1 * tx, -1 * ty, -1 * tz);
            sitk.center := (0, 0, 0) |}.
Proof.
  pose proof epsilon_pos as He.
  assert (He1 : sitk.epsilon < 1) by (unfold sitk.epsilon; lra).
  set (n2 := a * a + b * b + c * c).
  assert (Hn2 : 0 <= n2) by (unfold n2; nra).
  pose proof (sqrt_sqrt n2 Hn2) as Hsq.
  pose proof (sqrt_pos n2) as Hpos.
  set (s := if Rle_dec (1 - sitk.epsilon) (sqrt n2)
            then sqrt n2 + sitk.epsilon * sqrt n2 else 1).
  assert (Hs : 0 < s /\ n2 <= s * s).
  { unfold s. destruct (Rle_dec (1 - sitk.epsilon) (sqrt n2)) as [H|H].
    - split; nra.
    - split; nra. }
  destruct Hs as [Hs Hle].
  assert (Hsum : a / s * (a / s) + b / s * (b / s) + c / s * (c / s)
                 = n2 * / (s * s)).
  { unfold n2. field. lra. }
  assert (Hunit : 0 <= 1 - (a / s * (a / s) + b / s * (b / s) + c / s * (c / s))).
  { rewrite Hsum.
    assert (Hss : 0 < s * s) by nra.
    assert (Hq : n2 * / (s * s) <= 1).
    { apply (Rmult_le_reg_r (s * s)); [exact Hss|].
      rewrite Rmult_assoc, Rinv_l by lra. lra. }
    lra. }
  exists s, (sqrt (1 - (a / s * (a / s) + b / s * (b / s) + c / s * (c / s)))).
  split; [exact Hs|].
  split; [apply sqrt_sqrt, Hunit|].
  split; [reflexivity|].
  unfold np.scale. cbn [fmap list_fmap]. unfold sitk.SetParameters.
  replace (-1 * a * (-1 * a) + -1 * b * (-1 * b) + -1 * c * (-1 * c))
    with n2 by (unfold n2; ring).
  fold s. cbv zeta. cbn [sitk.center sitk.VersorRigid3DTransform_new].
  replace (-1 * a / s) with (-1 * (a / s)) by (unfold Rdiv; ring).
  replace (-1 * b / s) with (-1 * (b / s)) by (unfold Rdiv; ring).
  replace (-1 * c / s) with (-1 * (c / s)) by (unfold Rdiv; ring).
  replace (-1 * (a / s) * (-1 * (a / s)) + -1 * (b / s) * (-1 * (b / s)) +
           -1 * (c / s) * (-1 * (c / s)))
    with (a / s * (a / s) + b / s * (b / s) + c / s * (c / s)) by ring.
  reflexivity.
Qed.

Lemma SetParameters_valid (p : list R) :
  rigid.valid_parameters p ->
  exists x y z w tx ty tz,
    (exists a b c, p = [a; b; c; tx; ty; tz]) /\
    w * w = 1 - (x * x + y * y + z * z) /\
    sitk.SetParameters sitk.VersorRigid3DTransform_new p =
      Ok {| sitk.versor := (x, y, z, w); sitk.translation := (tx, ty, tz);
            sitk.center := (0, 0, 0) |} /\
    sitk.SetParameters sitk.VersorRigid3DTransform_new (np.scale (-1) p) =
      Ok {| sitk.versor := (-1 * x, -1 * y, -1 * z, w);
            sitk.translation := (-1 * tx, -1 * ty, -1 * tz);
            sitk.center := (0, 0, 0) |}.
Proof.
  destruct p as [|a [|b [|c [|tx [|ty [|tz [|]]]]]]]; simpl; try contradiction.
  intros _.
  destruct (SetParameters_scaled a b c tx ty tz []) as [s [w [_ [Hw [Hset Hneg]]]]].
  exists (a / s), (b / s), (c / s), w, tx, ty, tz.
  split; [eauto|]. split; [exact Hw|]. split; [exact Hset|exact Hneg].
Qed.

End rigid_facts.

(* ===================================================================== *)
(** ** Linear interpolation and the conversion to a sample *)
(* ===================================================================== *)

Section interpolation_facts.
Local Open Scope R_scope.














End interpolation_facts.
(* ===================================================================== *)
(** ** Applying the transform (C3, C8) *)
(* ===================================================================== *)

Section store_facts.
Import obj.

Lemma load_image_run (l : ref) (h : store) :
  oo.load_image l h =
  (match h !! l with
   | Some (OImage img) => Ok img
   | Some _ => Raise TypeError
   | None => Raise RuntimeError
   end, h).
Proof.
  unfold oo.load_image, bind, load.
  destruct (h !! l) as [[img|t|a]|]; reflexivity.
Qed.

Lemma load_transform_run (l : ref) (h : store) :
  oo.load_transform l h =
  (match h !! l with
   | Some (OTransform t) => Ok t
   | Some _ => Raise TypeError
   | None => Raise RuntimeError
   end, h).
Proof.
  unfold oo.load_transform, bind, load.
  destruct (h !! l) as [[img|t|a]|]; reflexivity.
Qed.

Lemma load_array_run (l : ref) (h : store) :
  oo.load_array l h =
  (match h !! l with
   | Some (OArray a) => Ok a
   | Some _ => Raise TypeError
   | None => Raise RuntimeError
   end, h).
Proof.
  unfold oo.load_array, bind, load.
  destruct (h !! l) as [[img|t|a]|]; reflexivity.
Qed.

Lemma insert_last (h : store) (o o' : object) :
  <[length h := o']> (h ++ [o]) = h ++ [o'].
Proof.
  rewrite insert_app_r_alt by lia. rewrite Nat.sub_diag. reflexivity.
Qed.

(** [transform.SetParameters(params)] on a transform that was just created. *)
Lemma SetParameters_fresh (h : store) (t0 : sitk.VersorRigid3DTransform)
    (params : ref) :
  oo.SetParameters (length h) params (h ++ [OTransform t0]) =
  match (h ++ [OTransform t0]) !! params with
  | Some (OArray p) =>
      match sitk.SetParameters t0 p with
      | Ok t => (Ok tt, h ++ [OTransform t])
      | Raise e => (Raise e, h ++ [OTransform t0])
      end
  | Some _ => (Raise TypeError, h ++ [OTransform t0])
  | None => (Raise RuntimeError, h ++ [OTransform t0])
  end.
Proof.
  unfold oo.SetParameters. unfold bind at 1.
  rewrite load_transform_run.
  rewrite (list_lookup_middle h [] _ (length h)) by reflexivity.
  unfold bind at 1. rewrite load_array_run.
  destruct ((h ++ [OTransform t0]) !! params) as [[img|t|p]|]; try reflexivity.
  unfold bind, lift.
  destruct (sitk.SetParameters t0 p) as [t|e]; [|reflexivity].
  unfold ret, write. rewrite insert_last. reflexivity.
Qed.

(** Every run of [apply_transform], in closed form. *)
Lemma apply_transform_run (h : store) (moving fixed params : ref) :
  apply_transform moving fixed params h =
  let h1 := h ++ [OTransform sitk.VersorRigid3DTransform_new] in
  match h1 !! params with
  | Some (OArray p) =>
      match sitk.SetParameters sitk.VersorRigid3DTransform_new p with
      | Ok t =>
          let h2 := h ++ [OTransform t] in
          match h2 !! fixed with
          | Some (OImage f) =>
              match h2 !! moving with
              | Some (OImage m) =>
                  (Ok (S (length h)),
                   h ++ [OTransform t;
                         OImage (sitk.Resample m f t sitk.sitkLinear 0
                                   (sitk.GetPixelID f))])
              | Some _ => (Raise TypeError, h2)
              | None => (Raise RuntimeError, h2)
              end
          | Some _ => (Raise TypeError, h2)
          | None => (Raise RuntimeError, h2)
          end
      | Raise e => (Raise e, h1)
      end
  | Some _ => (Raise TypeError, h1)
  | None => (Raise RuntimeError, h1)
  end.
Proof.
  unfold apply_transform. unfold bind at 1.
  unfold oo.VersorRigid3DTransform, alloc.
  unfold bind at 1. rewrite SetParameters_fresh.
  cbv zeta.
  destruct ((h ++ [OTransform sitk.VersorRigid3DTransform_new]) !! params)
    as [[img|t|p]|]; try reflexivity.
  destruct (sitk.SetParameters sitk.VersorRigid3DTransform_new p) as [t|e];
    [|reflexivity].
  unfold bind at 1. unfold oo.GetPixelID. unfold bind at 1.
  rewrite load_image_run.
  destruct ((h ++ [OTransform t]) !! fixed) as [[f|t'|a]|] eqn:Hf;
    try reflexivity.
  unfold ret at 1. unfold bind at 1. unfold oo.Resample.
  unfold bind at 1. rewrite load_image_run.
  destruct ((h ++ [OTransform t]) !! moving) as [[m|t'|a]|]; try reflexivity.
  unfold bind at 1. rewrite load_image_run, Hf.
  unfold bind at 1. rewrite load_transform_run.
  rewrite (list_lookup_middle h [] _ (length h)) by reflexivity.
  unfold alloc, ret. rewrite length_app. simpl.
  rewrite Nat.add_1_r, <- app_assoc. reflexivity.
Qed.

End store_facts.


Section apply_claims.
Import obj geom.
Local Open Scope R_scope.

Lemma lookup_second_new (h : store) (a b : object) :
  (h ++ [a; b]) !! S (length h) = Some b.
Proof.
  change (h ++ [a; b]) with (h ++ [a] ++ [b]). rewrite app_assoc.
  apply list_lookup_middle. rewrite length_app. simpl. lia.
Qed.

(** C8. Whatever the references given to [apply_transform] and whether it
    returns or raises, every object that was in the store is still there
    unchanged afterwards: the two images and the parameter vector in
    particular. When it returns, the result is a reference that was not in
    use before and that now holds an image. *)
Theorem apply_transform_leaves_inputs (h : store) (moving fixed params : ref) :
  (forall l o,
     h !! l = Some o ->
     (apply_transform moving fixed params h).2 !! l = Some o) /\
  (forall reg,
     (apply_transform moving fixed params h).1 = Ok reg ->
     h !! reg = None /\
     exists img,
       (apply_transform moving fixed params h).2 !! reg = Some (OImage img)).
Proof.
  rewrite apply_transform_run. cbv zeta.
  destruct ((h ++ [OTransform sitk.VersorRigid3DTransform_new]) !! params)
    as [[img|t|p]|];
    try (split; [intros l o Hl; apply lookup_app_l_Some, Hl|discriminate]).
  destruct (sitk.SetParameters sitk.VersorRigid3DTransform_new p) as [t|e];
    try (split; [intros l o Hl; apply lookup_app_l_Some, Hl|discriminate]).
  destruct ((h ++ [OTransform t]) !! fixed) as [[f|t'|a]|];
    try (split; [intros l o Hl; apply lookup_app_l_Some, Hl|discriminate]).
  destruct ((h ++ [OTransform t]) !! moving) as [[m|t'|a]|];
    try (split; [intros l o Hl; apply lookup_app_l_Some, Hl|discriminate]).
  split.
  - intros l o Hl. apply lookup_app_l_Some, Hl.
  - intros reg Hreg. cbn [fst snd] in *. inversion Hreg; subst reg.
    split.
    + apply lookup_ge_None. lia.
    + eexists. apply lookup_second_new.
Qed.



(** The cell that registers the microscopy image onto the ultrasound grid
    resamples through the transform of the negated vector. *)
Lemma register_mpm_to_us_run (h : store) (mpm us ct : ref)
    (m f : sitk.Image) (p : list R) (t' : sitk.VersorRigid3DTransform) :
  h !! mpm = Some (OImage m) ->
  h !! us = Some (OImage f) ->
  h !! ct = Some (OArray p) ->
  sitk.SetParameters sitk.VersorRigid3DTransform_new (np.scale (-1) p) = Ok t' ->
  register_mpm_to_us mpm us ct h =
  (Ok (S (S (length h))),
   h ++ [OArray (np.scale (-1) p); OTransform t';
         OImage (sitk.Resample m f t' sitk.sitkLinear 0 (sitk.GetPixelID f))]).
Proof.
  intros Hm Hf Hp Hset.
  unfold register_mpm_to_us. unfold bind at 1.
  unfold oo.scalar_mul. unfold bind at 1.
  rewrite load_array_run, Hp. unfold alloc.
  rewrite apply_transform_run. cbv zeta.
  rewrite <- !app_assoc. cbn [app].
  rewrite (list_lookup_middle h _ _ (length h)) by reflexivity.
  rewrite Hset. cbv beta iota.
  rewrite <- !app_assoc. cbn [app].
  rewrite (lookup_app_l_Some _ _ _ _ Hf), (lookup_app_l_Some _ _ _ _ Hm).
  rewrite length_app. simpl. rewrite Nat.add_1_r.
  rewrite <- !app_assoc. reflexivity.
Qed.

End apply_claims.

Section apply_witness.
Import geom.
Local Open Scope R_scope.




End apply_witness.


(* ===================================================================== *)
(** ** Going back with the negated vector (C1) *)
(* ===================================================================== *)

Section negation_claims.
Import geom.
Local Open Scope R_scope.

(** The maps of a parameter vector and of its negation. *)
Lemma negated_parameters_maps (p : list R) (t : sitk.VersorRigid3DTransform) :
  rigid.valid_parameters p ->
  sitk.SetParameters sitk.VersorRigid3DTransform_new p = Ok t ->
  exists t',
    sitk.SetParameters sitk.VersorRigid3DTransform_new (np.scale (-1) p) = Ok t' /\
    sitk.GetMatrix t' = inverse (sitk.GetMatrix t) /\
    sitk.translation t' = vopp (sitk.translation t) /\
    (forall x, rigid.apply (rigid.true_inverse (rigid.of_transform t))
                 (sitk.TransformPoint t x) = x) /\
    (forall x, sitk.TransformPoint t
                 (rigid.apply (rigid.true_inverse (rigid.of_transform t)) x) = x) /\
    (forall x,
       vsub (sitk.TransformPoint t' x)
            (rigid.apply (rigid.true_inverse (rigid.of_transform t)) x) =
       vsub (mulv (inverse (sitk.GetMatrix t)) (sitk.translation t))
            (sitk.translation t)) /\
    ((forall x, sitk.TransformPoint t' x =
                rigid.apply (rigid.true_inverse (rigid.of_transform t)) x) <->
     mulv (sitk.GetMatrix t) (sitk.translation t) = sitk.translation t) /\
    ((forall x, sitk.TransformPoint t' (sitk.TransformPoint t x) = x) <->
     mulv (sitk.GetMatrix t) (sitk.translation t) = sitk.translation t).
Proof.
  intros Hvalid Ht.
  destruct (SetParameters_valid p Hvalid)
    as [x [y [z [w [tx [ty [tz [_ [Hw [Hset Hneg]]]]]]]]]].
  rewrite Hset in Ht. inversion Ht; subst t. clear Ht Hset.
  eexists. split; [exact Hneg|]. clear Hneg.
  unfold sitk.TransformPoint, rigid.of_transform, rigid.true_inverse, rigid.apply.
  change (sitk.GetMatrix
            {| sitk.versor := (x, y, z, w); sitk.translation := (tx, ty, tz);
               sitk.center := (0, 0, 0) |})
    with (sitk.rotation_of (x, y, z, w)).
  change (sitk.GetMatrix
            {| sitk.versor := (-1 * x, -1 * y, -1 * z, w);
               sitk.translation := (-1 * tx, -1 * ty, -1 * tz);
               sitk.center := (0, 0, 0) |})
    with (sitk.rotation_of (-1 * x, -1 * y, -1 * z, w)).
  cbn [sitk.translation sitk.center fst snd].
  rewrite rotation_conjugate, (rotation_inverse x y z w Hw).
  pose proof (rotation_orthonormal x y z w Hw) as Hr.
  pose proof (rotation_orthonormal_l x y z w Hw) as Hl.
  set (M := sitk.rotation_of (x, y, z, w)) in *.
  set (tr := (tx, ty, tz)).
  assert (Hfix : mulv (transpose M) tr = tr <-> mulv M tr = tr).
  { split; intros H.
    - rewrite <- H at 1. rewrite <- mulv_mmul, Hr. apply mulv_identity.
    - rewrite <- H at 1. rewrite <- mulv_mmul, Hl. apply mulv_identity. }
  assert (Hneg : (-1 * tx, -1 * ty, -1 * tz) = vopp tr).
  { unfold tr, vopp. apply vec_eq; ring. }
  rewrite Hneg.
  assert (Hoff : forall v, vadd (vsub (0, 0, 0) (mulv M (0, 0, 0))) v = v).
  { intros v. destruct M as [[[[? ?] ?] [[? ?] ?]] [[? ?] ?]].
    destruct v as [[? ?] ?]. unfold vadd, vsub, mulv, dot.
    apply vec_eq; ring. }
  rewrite Hoff.
  assert (Hc : forall (N : mat) v, vadd (mulv N (vsub v (0, 0, 0))) (0, 0, 0)
                                   = mulv N v).
  { intros N v. rewrite vsub_zero, vadd_zero_r. reflexivity. }
  split; [reflexivity|]. split; [reflexivity|].
  split.
  { intros v. rewrite Hc, mulv_vadd, <- mulv_mmul, Hl, mulv_identity.
    apply vadd_vopp_r. }
  split.
  { intros v. rewrite Hc, mulv_vadd, <- mulv_mmul, Hr, mulv_identity.
    rewrite mulv_vopp, <- mulv_mmul, Hr, mulv_identity. apply vadd_vopp_l. }
  split.
  { intros v. rewrite Hc. apply vsub_shift. }
  split.
  { rewrite <- Hfix. split.
    - intros H. specialize (H (0, 0, 0)). rewrite Hc in H.
      apply vadd_cancel_l in H.
      destruct (mulv (transpose M) tr) as [[a b] c]. unfold tr, vopp in *.
      inversion H. apply vec_eq; lra.
    - intros H v. rewrite Hc, H. reflexivity. }
  { rewrite <- Hfix. split.
    - intros H. specialize (H (0, 0, 0)). rewrite !Hc in H.
      rewrite mulv_vadd, <- mulv_mmul, Hl, mulv_identity in H.
      apply vadd_fixed in H. exact H.
    - intros H v. rewrite !Hc.
      rewrite mulv_vadd, <- mulv_mmul, Hl, mulv_identity.
      apply vadd_fixed. exact H. }
Qed.

(** C1. Let [t] be the transform of a valid parameter vector [p]. The
    transform built from [-1 * p], which the notebook uses to go back, has
    the inverse rotation but the translation [- t] where the inverse
    (R^-1, - R^-1 t) has [- R^-1 t]. The two maps differ everywhere by the
    vector R^-1 t - t, so they coincide exactly when the rotation leaves the
    translation fixed (for instance when the rotation is the identity), and
    only then does the negated vector undo [t]. The cell of the notebook that
    registers the microscopy image onto the ultrasound grid resamples through
    that transform of the negated vector. *)
Theorem negated_parameters_inverse (p : list R) (t : sitk.VersorRigid3DTransform) :
  rigid.valid_parameters p ->
  sitk.SetParameters sitk.VersorRigid3DTransform_new p = Ok t ->
  exists t',
    sitk.SetParameters sitk.VersorRigid3DTransform_new (np.scale (-1) p) = Ok t' /\
    sitk.GetMatrix t' = inverse (sitk.GetMatrix t) /\
    sitk.translation t' = vopp (sitk.translation t) /\
    (forall x, rigid.apply (rigid.true_inverse (rigid.of_transform t))
                 (sitk.TransformPoint t x) = x) /\
    (forall x, sitk.TransformPoint t
                 (rigid.apply (rigid.true_inverse (rigid.of_transform t)) x) = x) /\
    (forall x,
       vsub (sitk.TransformPoint t' x)
            (rigid.apply (rigid.true_inverse (rigid.of_transform t)) x) =
       vsub (mulv (inverse (sitk.GetMatrix t)) (sitk.translation t))
            (sitk.translation t)) /\
    ((forall x, sitk.TransformPoint t' x =
                rigid.apply (rigid.true_inverse (rigid.of_transform t)) x) <->
     mulv (sitk.GetMatrix t) (sitk.translation t) = sitk.translation t) /\
    ((forall x, sitk.TransformPoint t' (sitk.TransformPoint t x) = x) <->
     mulv (sitk.GetMatrix t) (sitk.translation t) = sitk.translation t) /\
    (forall (h : obj.store) (mpm us ct : obj.ref) (m f : sitk.Image),
       h !! mpm = Some (obj.OImage m) ->
       h !! us = Some (obj.OImage f) ->
       h !! ct = Some (obj.OArray p) ->
       register_mpm_to_us mpm us ct h =
       (Ok (S (S (length h))),
        h ++ [obj.OArray (np.scale (-1) p); obj.OTransform t';
              obj.OImage (sitk.Resample m f t' sitk.sitkLinear 0
                            (sitk.GetPixelID f))])).
Proof.
  intros Hvalid Ht.
  destruct (negated_parameters_maps p t Hvalid Ht)
    as [t' [Hneg [H1 [H2 [H3 [H4 [H5 [H6 H7]]]]]]]].
  exists t'. repeat (split; [assumption|]).
  intros h mpm us ct m f Hm Hf Hp.
  apply register_mpm_to_us_run; assumption.
Qed.

End negation_claims.

Lemma negated_parameters_inverse_witness :
  exists t t',
    sitk.SetParameters sitk.VersorRigid3DTransform_new samples.half_turn_shift
      = Ok t /\
    sitk.SetParameters sitk.VersorRigid3DTransform_new
      (np.scale (-1) samples.half_turn_shift) = Ok t' /\
    ~ (forall x, sitk.TransformPoint t' (sitk.TransformPoint t x) = x).
Proof.
  destruct (SetParameters_scaled 0 0 1 1 0 0 []) as [s [w [Hs [_ [Hset _]]]]].
  destruct (negated_parameters_inverse samples.half_turn_shift _
              ltac:(simpl; lra) Hset)
    as [t' [Hneg [_ [_ [_ [_ [_ [_ [Hiff _]]]]]]]]].
  eexists. exists t'. split; [exact Hset|]. split; [exact Hneg|].
  intros Hall. apply Hiff in Hall.
  cbv [sitk.GetMatrix sitk.rotation_of sitk.versor sitk.translation
       geom.mulv geom.dot] in Hall.
  inversion Hall as [[H0 H1 H2]].
  pose proof (Rinv_0_lt_compat s Hs) as Hi.
  unfold Rdiv in H0. nra.
Defined.

(* ===================================================================== *)
(** ** Tile positions: what the loop returns *)
(* ===================================================================== *)

Section tile_facts.
Import views.
Local Open Scope R_scope.

Lemma position_of_length p row : position_of p = Ok row -> length row = 3%nat.
Proof.
  unfold position_of. intros H.
  repeat (apply rbind_Ok in H as [? [_ H]]).
  inversion H. reflexivity.
Qed.

(** The loop appends one row per entry, in order, or raises. *)
Lemma positions_loop_Ok todo acc rows :
  positions_loop todo acc = Ok rows <->
  exists new,
    Forall2 (fun p row => position_of p = Ok row) todo new /\ rows = acc ++ new.
Proof.
  revert acc. induction todo as [|p todo IH]; intros acc; cbn [positions_loop].
  - split.
    + intros H. inversion H. exists []. rewrite app_nil_r. split; constructor.
    + intros [new [Hall ->]]. inversion Hall. rewrite app_nil_r. reflexivity.
  - split.
    + intros H. apply rbind_Ok in H as [row [Hrow H]].
      apply IH in H as [new [Hall ->]].
      exists (row :: new). split; [constructor; assumption|].
      rewrite <- app_assoc. reflexivity.
    + intros [new [Hall ->]]. inversion Hall as [|? row ? new' Hrow Hrest]; subst.
      rewrite Hrow. cbn [rbind]. apply IH. exists new'.
      split; [exact Hrest|]. rewrite <- app_assoc. reflexivity.
Qed.

Variable ReadImage : string -> result sitk.Image.
Variable ReadImageInformation : string -> result (gmap string string).
Variable xml2dict : string -> result py.pyval.

Lemma positions_from_ometif_images file_path :
  positions_from_ometif ReadImageInformation xml2dict file_path =
  (images <~ descr.images_of ReadImageInformation xml2dict file_path ;
   todo <~ py.iter images ;
   mpm_list <~ positions_loop todo [] ;
   Ok (np.array mpm_list)).
Proof.
  unfold positions_from_ometif, descr.images_of.
  destruct (ReadImageInformation file_path) as [md|]; [|reflexivity].
  cbn [rbind].
  destruct (GetMetaData md "ImageDescription") as [text|]; [|reflexivity].
  cbn [rbind].
  destruct (xml2dict text) as [info|]; [|reflexivity]. cbn [rbind].
  destruct (py.getitem info (py.KStr "OME")) as [o|]; reflexivity.
Qed.

Lemma positions_from_ometif_Ok file_path arr :
  positions_from_ometif ReadImageInformation xml2dict file_path = Ok arr <->
  exists images tiles rows,
    descr.images_of ReadImageInformation xml2dict file_path = Ok images /\
    py.iter images = Ok tiles /\
    Forall2 (fun p row => position_of p = Ok row) tiles rows /\
    arr = np.array rows.
Proof.
  rewrite positions_from_ometif_images. split.
  - intros H.
    apply rbind_Ok in H as [images [Him H]].
    apply rbind_Ok in H as [tiles [Hit H]].
    apply rbind_Ok in H as [rows [Hloop H]].
    apply positions_loop_Ok in Hloop as [new [Hall ->]].
    inversion H. exists images, tiles, new. auto.
  - intros [images [tiles [rows [Him [Hit [Hall ->]]]]]].
    rewrite Him. cbn [rbind]. rewrite Hit. cbn [rbind].
    rewrite (proj2 (positions_loop_Ok tiles [] rows)) by eauto.
    reflexivity.
Qed.

(** X1. When the image entries of the descriptor are [tiles],
    [positions_from_ometif] returns an array exactly when every tile can be
    read, and the array then has one row per tile, in the order of the
    tiles: no tile is skipped and none is reordered. *)
Theorem positions_from_ometif_rows file_path images tiles arr :
  descr.images_of ReadImageInformation xml2dict file_path = Ok images ->
  py.iter images = Ok tiles ->
  (positions_from_ometif ReadImageInformation xml2dict file_path = Ok arr <->
   exists rows,
     Forall2 (fun p row => position_of p = Ok row) tiles rows /\
     length rows = length tiles /\
     arr = np.array rows).
Proof.
  intros Him Hit. rewrite positions_from_ometif_Ok. split.
  - intros [images' [tiles' [rows [Him' [Hit' [Hall ->]]]]]].
    rewrite Him in Him'. inversion Him'; subst images'.
    rewrite Hit in Hit'. inversion Hit'; subst tiles'.
    exists rows. split; [exact Hall|].
    split; [symmetry; exact (Forall2_length _ _ _ Hall)|reflexivity].
  - intros [rows [Hall [_ ->]]]. exists images, tiles, rows. auto.
Qed.

(** X2. A descriptor whose list of images is empty is read without error,
    as an array with no row; [open_mpm] then raises [ValueError], because
    the minimum of no position does not exist, whatever the image file. *)
Theorem open_mpm_no_tiles mpm_path mpm_origin_path mpm_spacing images :
  descr.images_of ReadImageInformation xml2dict mpm_origin_path = Ok images ->
  py.iter images = Ok [] ->
  positions_from_ometif ReadImageInformation xml2dict mpm_origin_path
    = Ok (np.Float2 []) /\
  open_mpm ReadImage ReadImageInformation xml2dict mpm_path mpm_origin_path
    mpm_spacing = Raise ValueError.
Proof.
  intros Him Hit.
  assert (Hp : positions_from_ometif ReadImageInformation xml2dict
                 mpm_origin_path = Ok (np.Float2 [])).
  { rewrite positions_from_ometif_images, Him. cbn [rbind]. rewrite Hit.
    reflexivity. }
  split; [exact Hp|]. unfold open_mpm. rewrite Hp. reflexivity.
Qed.

(** X3. When the descriptor holds a single image entry that is a dictionary
    rather than a list of dictionaries, the loop visits the keys of that
    dictionary, and [positions_from_ometif] raises [TypeError]. *)
Theorem positions_from_ometif_single_image file_path (d : gmap string py.pyval) :
  descr.images_of ReadImageInformation xml2dict file_path = Ok (py.PDict d) ->
  d <> ∅ ->
  positions_from_ometif ReadImageInformation xml2dict file_path
    = Raise TypeError.
Proof.
  intros Him Hne. rewrite positions_from_ometif_images, Him. cbn [rbind py.iter].
  destruct (map_to_list d) as [|[k v] rest] eqn:Hl.
  - apply map_to_list_empty_iff in Hl. contradiction.
  - reflexivity.
Qed.

End tile_facts.

Lemma positions_from_ometif_rows_witness :
  positions_from_ometif samples.ReadImageInformation samples2.xml2dict_two_tiles
    "tiles.ome.tif" = Ok (np.Float2 [[5; 7; 3]; [4; 9; 1]]%R).
Proof.
  apply (positions_from_ometif_rows samples.ReadImageInformation
           samples2.xml2dict_two_tiles "tiles.ome.tif"
           (py.PList [samples.tile 5 7 3; samples.tile 4 9 1])
           [samples.tile 5 7 3; samples.tile 4 9 1]).
  - vm_compute. reflexivity.
  - reflexivity.
  - exists [[py.PNum 5; py.PNum 7; py.PNum 3];
            [py.PNum 4; py.PNum 9; py.PNum 1]]%R.
    split; [|split; reflexivity].
    repeat constructor.
Defined.

Lemma open_mpm_no_tiles_witness :
  open_mpm samples.ReadImage samples.ReadImageInformation
    samples2.xml2dict_no_tiles "mpm.tif" "tiles.ome.tif" [8.16; 8.16; 8.16]%R
  = Raise ValueError.
Proof.
  apply (open_mpm_no_tiles samples.ReadImage samples.ReadImageInformation
           samples2.xml2dict_no_tiles "mpm.tif" "tiles.ome.tif"
           [8.16; 8.16; 8.16]%R (py.PList [])).
  - vm_compute. reflexivity.
  - reflexivity.
Defined.

Lemma positions_from_ometif_single_image_witness :
  positions_from_ometif samples.ReadImageInformation samples2.xml2dict_single
    "tile.ome.tif" = Raise TypeError.
Proof.
  assert (Hd : exists d, samples.tile 5 7 3 = py.PDict d /\ d <> ∅).
  { eexists. split; [reflexivity|].
    intros H. apply (f_equal (fun m => m !! "Pixels")) in H.
    vm_compute in H. discriminate. }
  destruct Hd as [d [Hd Hne]].
  apply (positions_from_ometif_single_image samples.ReadImageInformation
           samples2.xml2dict_single "tile.ome.tif" d); [|exact Hne].
  rewrite <- Hd. vm_compute. reflexivity.
Defined.

Section mpm_origin.
Import views.
Local Open Scope R_scope.

Lemma fold_minimum_triples (rest : list (list R)) (x y z : R) :
  Forall (fun r => length r = 3%nat) rest ->
  exists mx my mz,
    fold_left np.minimum rest [x; y; z] = [mx; my; mz] /\
    least mx (x :: column 0 rest) /\
    least my (y :: column 1 rest) /\
    least mz (z :: column 2 rest).
Proof.
  revert x y z. induction rest as [|r rest IH]; intros x y z Hall.
  - exists x, y, z. split; [reflexivity|].
    repeat split;
      solve [left|intros v Hv; apply list_elem_of_singleton in Hv; lra].
  - apply Forall_cons in Hall as [Hr Hall].
    destruct r as [|a [|b [|c [|]]]]; try discriminate.
    destruct (IH (Rmin x a) (Rmin y b) (Rmin z c) Hall)
      as [mx [my [mz [Hfold [Hx [Hy Hz]]]]]].
    exists mx, my, mz. split; [exact Hfold|].
    repeat split; apply least_cons_min; assumption.
Qed.

(** The rows of floats of an array built from rows of three values have
    three values each. *)
Lemma array_Float2_length rows fl :
  Forall (fun r => length r = 3%nat) rows ->
  np.array rows = np.Float2 fl ->
  Forall (fun r => length r = 3%nat) fl.
Proof.
  intros Hlen. unfold np.array.
  destruct rows as [|r0 rows0] eqn:Hrows.
  { intros H. inversion H. constructor. }
  rewrite <- Hrows in *. clear Hrows r0 rows0.
  destruct (mapM (mapM np.as_float) rows) as [fl'|] eqn:Hm; [|discriminate].
  destruct (existsb (existsb np.is_float) rows); [|discriminate].
  intros H. inversion H; subst fl'. clear H.
  apply mapM_Some in Hm. revert Hlen.
  induction Hm as [|r f rows fl Hr Hrest IH]; intros Hlen; constructor.
  - apply Forall_cons in Hlen as [Hl _].
    apply mapM_Some, Forall2_length in Hr. lia.
  - apply IH. apply Forall_cons in Hlen as [_ Hl]. exact Hl.
Qed.

Lemma array_not_numeric rows row v :
  row ∈ rows -> v ∈ row -> np.as_float v = None ->
  np.array rows = np.Other2 rows.
Proof.
  intros Hrow Hv Hnone. unfold np.array.
  destruct rows as [|r0 rows0] eqn:Hrows.
  { apply elem_of_nil in Hrow. contradiction. }
  rewrite <- Hrows in *. clear Hrows r0 rows0.
  destruct (mapM (mapM np.as_float) rows) as [fl|] eqn:Hm; [|reflexivity].
  exfalso.
  assert (His : is_Some (mapM (mapM np.as_float) rows)) by eauto.
  apply mapM_is_Some in His.
  apply (proj1 (Forall_forall _ _) His) in Hrow.
  apply mapM_is_Some in Hrow.
  apply (proj1 (Forall_forall _ _) Hrow) in Hv.
  change (is_Some (np.as_float v)) in Hv.
  rewrite Hnone in Hv. destruct Hv as [? Hv]. discriminate.
Qed.

Variable ReadImage : string -> result sitk.Image.
Variable ReadImageInformation : string -> result (gmap string string).
Variable xml2dict : string -> result py.pyval.

(** X4. The origin of an image returned by [open_mpm] is made of the least
    stage X, the least stage Y and the least plane Z over the tiles of the
    descriptor, of which there is at least one; its voxels and its pixel
    type are those of the file, untouched. *)
Theorem open_mpm_origin_minimum mpm_path mpm_origin_path mpm_spacing img :
  open_mpm ReadImage ReadImageInformation xml2dict mpm_path mpm_origin_path
    mpm_spacing = Ok img ->
  exists rows raw mx my mz,
    positions_from_ometif ReadImageInformation xml2dict mpm_origin_path
      = Ok (np.Float2 rows) /\
    rows <> [] /\
    ReadImage mpm_path = Ok raw /\
    sitk.pixels img = sitk.pixels raw /\
    sitk.GetPixelID img = sitk.GetPixelID raw /\
    sitk.GetOrigin img = [mx; my; mz] /\
    least mx (column 0 rows) /\
    least my (column 1 rows) /\
    least mz (column 2 rows).
Proof.
  intros H.
  apply (open_mpm_Ok ReadImage ReadImageInformation xml2dict) in H
    as [positions [origin [raw [s [o [Hp [Hmin [Hraw [_ [Ho ->]]]]]]]]]].
  pose proof Hp as Hp'.
  apply positions_from_ometif_Ok in Hp'
    as [images [tiles [prow [_ [_ [Hall Harr]]]]]].
  assert (Hlen : Forall (fun r => length r = 3%nat) prow).
  { clear -Hall. induction Hall as [|p row ? ? Hrow _ IH]; constructor;
      [exact (position_of_length _ _ Hrow)|exact IH]. }
  destruct positions as [rows|other]; [|discriminate].
  symmetry in Harr. pose proof (array_Float2_length _ _ Hlen Harr) as Hfl.
  destruct rows as [|r rows]; [discriminate|].
  apply Forall_cons in Hfl as [Hr Hfl].
  destruct r as [|x [|y [|z [|]]]]; try discriminate.
  destruct (fold_minimum_triples rows x y z Hfl)
    as [mx [my [mz [Hfold [Hx [Hy Hz]]]]]].
  cbn [np.min0] in Hmin. rewrite Hfold in Hmin. inversion Hmin; subst origin.
  inversion Ho; subst o.
  exists ([x; y; z] :: rows), raw, mx, my, mz.
  repeat split; try assumption; try reflexivity.
  - discriminate.
  - apply Hx.
  - apply Hx.
  - apply Hy.
  - apply Hy.
  - apply Hz.
  - apply Hz.
Qed.

(** X5. A stage or plane position that is text is not replaced by a
    number. When every position of the descriptor is a float or a text and
    one of them is a text, the array of positions is not an array of floats
    and [open_mpm] raises [TypeError] when it asks for the minimum. *)
Theorem open_mpm_text_position mpm_path mpm_origin_path mpm_spacing
    images tiles rows row (s : string) :
  descr.images_of ReadImageInformation xml2dict mpm_origin_path = Ok images ->
  py.iter images = Ok tiles ->
  Forall2 (fun p row => position_of p = Ok row) tiles rows ->
  Forall (Forall (fun v => (exists r, v = py.PNum r) \/
                           (exists s', v = py.PStr s'))) rows ->
  row ∈ rows -> py.PStr s ∈ row ->
  positions_from_ometif ReadImageInformation xml2dict mpm_origin_path
    = Ok (np.Other2 rows) /\
  open_mpm ReadImage ReadImageInformation xml2dict mpm_path mpm_origin_path
    mpm_spacing = Raise TypeError.
Proof.
  intros Him Hit Hall _ Hrow Hv.
  assert (Hp : positions_from_ometif ReadImageInformation xml2dict
                 mpm_origin_path = Ok (np.Other2 rows)).
  { apply positions_from_ometif_Ok. exists images, tiles, rows.
    repeat split; try assumption.
    symmetry. exact (array_not_numeric rows row (py.PStr s) Hrow Hv eq_refl). }
  split; [exact Hp|]. unfold open_mpm. rewrite Hp. reflexivity.
Qed.

End mpm_origin.

Lemma sample_positions_two :
  positions_from_ometif samples.ReadImageInformation samples2.xml2dict_two_tiles
    "tiles.ome.tif" = Ok (np.Float2 [[5; 7; 3]; [4; 9; 1]]%R).
Proof. vm_compute. reflexivity. Qed.

Lemma open_mpm_origin_minimum_witness :
  exists img,
    open_mpm samples.ReadImage samples.ReadImageInformation
      samples2.xml2dict_two_tiles "mpm.tif" "tiles.ome.tif"
      [8.16; 8.16; 8.16]%R = Ok img /\
    sitk.GetOrigin img = [4; 7; 1]%R /\
    sitk.pixels img = sitk.pixels samples.two_voxels.
Proof.
  assert (Hrun : exists img,
             open_mpm samples.ReadImage samples.ReadImageInformation
               samples2.xml2dict_two_tiles "mpm.tif" "tiles.ome.tif"
               [8.16; 8.16; 8.16]%R = Ok img).
  { eexists. apply open_mpm_Ok.
    exists (np.Float2 [[5; 7; 3]; [4; 9; 1]]%R),
      [Rmin 5 4; Rmin 7 9; Rmin 3 1], samples.two_voxels,
      (8.16, 8.16, 8.16)%R, (Rmin 5 4, Rmin 7 9, Rmin 3 1).
    repeat split;
      solve [apply sample_positions_two | reflexivity
            | apply spacing_of_list_pos; lra]. }
  destruct Hrun as [img Hrun]. exists img. split; [exact Hrun|].
  destruct (open_mpm_origin_minimum samples.ReadImage
              samples.ReadImageInformation samples2.xml2dict_two_tiles
              _ _ _ img Hrun)
    as [rows [raw [mx [my [mz [Hp [_ [Hraw [Hpix [_ [Ho [Hx [Hy Hz]]]]]]]]]]]]].
  destruct Hx as [Hxin Hxle], Hy as [Hyin Hyle], Hz as [Hzin Hzle].
  rewrite sample_positions_two in Hp. inversion Hp; subst rows.
  vm_compute in Hraw. inversion Hraw; subst raw.
  split; [|exact Hpix]. rewrite Ho.
  simpl in Hxin, Hyin, Hzin.
  assert (Hx4 : (mx <= 4)%R) by (apply Hxle; simpl; right; left).
  assert (Hy7 : (my <= 7)%R) by (apply Hyle; simpl; left).
  assert (Hz1 : (mz <= 1)%R) by (apply Hzle; simpl; right; left).
  assert (mx = 4%R) as ->.
  { repeat (apply elem_of_cons in Hxin as [->|Hxin]); try lra.
    apply elem_of_nil in Hxin. contradiction. }
  assert (my = 7%R) as ->.
  { repeat (apply elem_of_cons in Hyin as [->|Hyin]); try lra.
    apply elem_of_nil in Hyin. contradiction. }
  assert (mz = 1%R) as ->.
  { repeat (apply elem_of_cons in Hzin as [->|Hzin]); try lra.
    apply elem_of_nil in Hzin. contradiction. }
  reflexivity.
Defined.

Lemma open_mpm_text_position_witness :
  open_mpm samples.ReadImage samples.ReadImageInformation
    samples2.xml2dict_text_X "mpm.tif" "tiles.ome.tif" [8.16; 8.16; 8.16]%R
  = Raise TypeError.
Proof.
  apply (open_mpm_text_position samples.ReadImage samples.ReadImageInformation
           samples2.xml2dict_text_X "mpm.tif" "tiles.ome.tif"
           [8.16; 8.16; 8.16]%R
           (py.PList [samples2.tile_text_X 7 3]) [samples2.tile_text_X 7 3]
           [[py.PStr "left"; py.PNum 7; py.PNum 3]]%R
           [py.PStr "left"; py.PNum 7; py.PNum 3]%R "left").
  - vm_compute. reflexivity.
  - reflexivity.
  - repeat constructor.
  - repeat (apply Forall_cons; split); try apply Forall_nil_2;
      [right|left|left]; eauto.
  - left.
  - left.
Defined.

(* ===================================================================== *)
(** ** More on the opened images *)
(* ===================================================================== *)

Section opened_images.
Import geom views.
Local Open Scope R_scope.

Variable ReadImage : string -> result sitk.Image.
Variable window_image : sitk.Image -> R -> result sitk.Image.
Variable ReadImageInformation : string -> result (gmap string string).
Variable xml2dict : string -> result py.pyval.

(** X6. The image returned by [open_us] has for origin the first three
    components of the origin given and for spacing the first three
    components of the spacing given (further components are ignored), and
    it has the extents of the windowed image along y and z exchanged: a
    windowed image of size (nx, ny, nz) gives an image of size (nx, nz, ny). *)
Theorem open_us_origin_and_size us_path dynamic_range spacing origin img :
  open_us ReadImage window_image us_path dynamic_range spacing origin = Ok img ->
  sitk.GetOrigin img = take 3 origin /\
  sitk.GetSpacing img = take 3 spacing /\
  exists raw windowed,
    ReadImage us_path = Ok raw /\
    window_image raw dynamic_range = Ok windowed /\
    forall nx ny nz,
      sitk.GetSize windowed = (nx, ny, nz) -> sitk.GetSize img = (nx, nz, ny).
Proof.
  intros H.
  apply (open_us_Ok ReadImage window_image) in H
    as [raw [w [s [o [Hraw [Hw [Hs [Ho ->]]]]]]]].
  split.
  { unfold sitk.GetOrigin. cbn [sitk.origin]. apply list_of_vec_of_list, Ho. }
  split.
  { unfold sitk.GetSpacing. cbn [sitk.spacing].
    apply spacing_of_list_Some in Hs as [Hs _].
    apply list_of_vec_of_list, Hs. }
  exists raw, w. split; [exact Hraw|]. split; [exact Hw|].
  intros nx ny nz. unfold sitk.GetSize, quarter_turn. cbn [sitk.pixels].
  destruct (np.shape (sitk.pixels w)) as [[d0 d1] d2].
  rewrite shape_of_fun. intros Hs'. inversion Hs'. reflexivity.
Qed.

(** X7. Once the file is read and windowed, [open_us] raises
    [RuntimeError] when the spacing or the origin has fewer than three
    components, or when one of the first three components of the spacing is
    zero or negative. *)
Theorem open_us_refused_geometry us_path dynamic_range spacing origin raw windowed :
  ReadImage us_path = Ok raw ->
  window_image raw dynamic_range = Ok windowed ->
  (length spacing < 3)%nat \/ Exists (fun s => s <= 0) (take 3 spacing) \/
  (length origin < 3)%nat ->
  open_us ReadImage window_image us_path dynamic_range spacing origin
    = Raise RuntimeError.
Proof.
  intros Hraw Hw Hbad. unfold open_us.
  rewrite Hraw. cbn [rbind]. rewrite Hw. cbn [rbind].
  rewrite rotate_axes_eq. cbn [rbind]. unfold sitk.SetSpacing.
  destruct (sitk.spacing_of_list spacing) as [s|] eqn:Hs; [|reflexivity].
  cbn [rbind]. unfold sitk.SetOrigin.
  destruct (vec_of_list origin) as [o|] eqn:Ho; [|reflexivity].
  exfalso.
  assert (Hsp : sitk.spacing_of_list spacing <> None) by (rewrite Hs; discriminate).
  rewrite spacing_of_list_None in Hsp.
  destruct Hbad as [Hl|[Hl|Hl]].
  - apply Hsp. left. exact Hl.
  - apply Hsp. right. exact Hl.
  - apply vec_of_list_short in Hl. rewrite Hl in Ho. discriminate.
Qed.

(** X8. In an image returned by [open_us] or by [open_mpm], with spacing
    (sx, sy, sz) and origin (ox, oy, oz), the voxel of index (i, j, k) sits
    at (ox + i sx, oy + j sy, oz - k sz): positions grow with the index along
    x and y and decrease along z. *)
Theorem opened_image_voxel_position (img : sitk.Image) (sx sy sz ox oy oz : R)
    (i j k : nat) :
  (exists us_path dynamic_range spacing origin,
     open_us ReadImage window_image us_path dynamic_range spacing origin
       = Ok img) \/
  (exists mpm_path mpm_origin_path mpm_spacing,
     open_mpm ReadImage ReadImageInformation xml2dict mpm_path mpm_origin_path
       mpm_spacing = Ok img) ->
  sitk.GetSpacing img = [sx; sy; sz] ->
  sitk.GetOrigin img = [ox; oy; oz] ->
  sitk.TransformIndexToPhysicalPoint img (i, j, k) =
  (ox + INR i * sx, oy + INR j * sy, oz - INR k * sz).
Proof.
  intros H Hsp Hor.
  assert (Hd : sitk.direction img = rigid.z_mirror).
  { destruct H as [[p [dr [sp [og H]]]]|[p [op [sp H]]]].
    - apply (open_us_Ok ReadImage window_image) in H
        as [raw [w [s [o [_ [_ [_ [_ ->]]]]]]]].
      reflexivity.
    - apply (open_mpm_Ok ReadImage ReadImageInformation xml2dict) in H
        as [ps [og [raw [s [o [_ [_ [_ [_ [_ ->]]]]]]]]]].
      reflexivity. }
  unfold sitk.TransformIndexToPhysicalPoint, sitk.GetSpacing, sitk.GetOrigin in *.
  rewrite Hd.
  destruct (sitk.spacing img) as [[a b] c], (sitk.origin img) as [[d e] f].
  inversion Hsp. inversion Hor. subst.
  unfold rigid.z_mirror, vadd, mulv, dot. apply vec_eq; ring.
Qed.

End opened_images.

Lemma open_us_origin_and_size_witness :
  exists img,
    open_us samples.ReadImage samples.window_image "us.tif" 50 [25; 25; 25]%R
      [0; 0; 4; 99]%R = Ok img /\
    sitk.GetOrigin img = [0; 0; 4]%R /\
    sitk.GetSize img = (1, 1, 1).
Proof.
  assert (Hrun : exists img,
             open_us samples.ReadImage samples.window_image "us.tif" 50
               [25; 25; 25]%R [0; 0; 4; 99]%R = Ok img).
  { eexists. apply open_us_Ok.
    exists samples.bright_voxel, samples.bright_voxel,
      (25, 25, 25)%R, (0, 0, 4)%R.
    repeat split; try reflexivity. apply spacing_of_list_pos; lra. }
  destruct Hrun as [img H]. exists img. split; [exact H|].
  destruct (open_us_origin_and_size samples.ReadImage samples.window_image
              _ _ _ _ img H) as [Ho [_ [raw [w [Hraw [Hw Hsize]]]]]].
  split; [exact Ho|].
  vm_compute in Hraw. inversion Hraw; subst raw.
  vm_compute in Hw. inversion Hw; subst w.
  apply (Hsize 1 1 1)%nat. reflexivity.
Defined.

Lemma open_us_refused_geometry_witness :
  open_us samples.ReadImage samples.window_image "us.tif" 50 [25; 25]%R
    [0; 0; 4]%R = Raise RuntimeError /\
  open_us samples.ReadImage samples.window_image "us.tif" 50 [25; 0; 25]%R
    [0; 0; 4]%R = Raise RuntimeError.
Proof.
  split.
  - apply (open_us_refused_geometry samples.ReadImage samples.window_image
             "us.tif" 50%R [25; 25]%R [0; 0; 4]%R samples.bright_voxel
             samples.bright_voxel).
    + reflexivity.
    + reflexivity.
    + left. simpl. lia.
  - apply (open_us_refused_geometry samples.ReadImage samples.window_image
             "us.tif" 50%R [25; 0; 25]%R [0; 0; 4]%R samples.bright_voxel
             samples.bright_voxel).
    + reflexivity.
    + reflexivity.
    + right. left. simpl. apply Exists_cons_tl, Exists_cons_hd. lra.
Defined.

Lemma opened_image_voxel_position_witness :
  exists img,
    open_us samples.ReadImage samples.window_image "us.tif" 50 [25; 25; 25]%R
      [0; 0; 4]%R = Ok img /\
    sitk.TransformIndexToPhysicalPoint img (1, 2, 3) = (25, 50, -71)%R.
Proof.
  destruct sample_open_us as [img H]. exists img. split; [exact H|].
  rewrite (opened_image_voxel_position samples.ReadImage samples.window_image
             samples.ReadImageInformation samples.xml2dict img
             25 25 25 0 0 4 1 2 3).
  - apply vec_eq; simpl; lra.
  - left. eauto.
  - apply (open_us_Ok samples.ReadImage samples.window_image) in H
      as [raw [w [s [o [_ [_ [Hs [_ ->]]]]]]]].
    rewrite spacing_of_list_pos in Hs by lra. inversion Hs. reflexivity.
  - apply (open_us_Ok samples.ReadImage samples.window_image) in H
      as [raw [w [s [o [_ [_ [_ [Ho ->]]]]]]]].
    inversion Ho. reflexivity.
Defined.

(* ===================================================================== *)
(** ** More on the origin of the ultrasound grid *)
(* ===================================================================== *)

Section origin_more.
Import views.
Local Open Scope R_scope.

Lemma least_unique (m m' : R) (l l' : list R) :
  l ≡ₚ l' -> least m l -> least m' l' -> m = m'.
Proof.
  intros Hp [Hin Hle] [Hin' Hle'].
  assert (m <= m') by (apply Hle; rewrite Hp; exact Hin').
  assert (m' <= m) by (apply Hle'; rewrite <- Hp; exact Hin).
  lra.
Qed.

Lemma column_Permutation (c : nat) (rows rows' : list (list R)) :
  rows ≡ₚ rows' -> column c rows ≡ₚ column c rows'.
Proof. intros H. unfold column. rewrite H. reflexivity. Qed.

Variable ReadImage : string -> result sitk.Image.
Variable window_image : sitk.Image -> R -> result sitk.Image.
Variable read_json : string -> result py.pyval.

(** The origin of a non-empty table of pairs, in closed form. *)
Lemma get_xy_origin_pairs clean pl_path raw rest rows :
  read_json pl_path = Ok raw ->
  clean raw = Ok (np.Float2 rows, rest) ->
  rows <> [] ->
  Forall (fun r => length r = 2%nat) rows ->
  exists mx my,
    get_xy_origin read_json clean pl_path = Ok [mx; my] /\
    least mx (column 0 rows) /\
    least my (column 1 rows).
Proof.
  intros Hraw Hclean Hne Hall.
  unfold get_xy_origin. rewrite Hraw. cbn [rbind]. rewrite Hclean. cbn [rbind fst].
  destruct rows as [|r rows]; [congruence|].
  apply Forall_cons in Hall as [Hr Hall].
  destruct r as [|x [|y [|]]]; try discriminate.
  destruct (fold_minimum_pairs rows x y Hall) as [mx [my [Hfold [Hx Hy]]]].
  exists mx, my. cbn [np.min0 rbind]. rewrite Hfold.
  split; [reflexivity|]. split; assumption.
Qed.

(** X14. The origin does not depend on the order of the entries of the
    position list: two tables of (x, y) pairs that are permutations of one
    another give the same result. *)
Theorem get_xy_origin_order clean1 clean2 pl_path raw rest1 rest2 rows1 rows2 :
  read_json pl_path = Ok raw ->
  clean1 raw = Ok (np.Float2 rows1, rest1) ->
  clean2 raw = Ok (np.Float2 rows2, rest2) ->
  rows1 ≡ₚ rows2 ->
  Forall (fun r => length r = 2%nat) rows1 ->
  get_xy_origin read_json clean1 pl_path = get_xy_origin read_json clean2 pl_path.
Proof.
  intros Hraw H1 H2 Hp Hall1.
  assert (Hall2 : Forall (fun r => length r = 2%nat) rows2)
    by (rewrite <- Hp; exact Hall1).
  destruct rows1 as [|r1 rows1].
  - apply Permutation_nil_l in Hp. subst rows2.
    unfold get_xy_origin. rewrite Hraw. cbn [rbind]. rewrite H1, H2.
    reflexivity.
  - assert (Hne2 : rows2 <> []).
    { intros ->. apply Permutation_nil_r in Hp. discriminate. }
    destruct (get_xy_origin_pairs clean1 pl_path raw rest1 (r1 :: rows1))
      as [mx [my [Hrun1 [Hx1 Hy1]]]]; try assumption; [discriminate|].
    destruct (get_xy_origin_pairs clean2 pl_path raw rest2 rows2)
      as [mx' [my' [Hrun2 [Hx2 Hy2]]]]; try assumption.
    rewrite Hrun1, Hrun2.
    rewrite (least_unique mx mx' _ _ (column_Permutation 0 _ _ Hp) Hx1 Hx2).
    rewrite (least_unique my my' _ _ (column_Permutation 1 _ _ Hp) Hy1 Hy2).
    reflexivity.
Qed.

(** X15. When the cleaned position list has no entry, [get_xy_origin]
    raises [ValueError]; when reading or cleaning raises, it raises the same
    exception. *)
Theorem get_xy_origin_empty_or_unreadable clean pl_path :
  (forall raw rest,
     read_json pl_path = Ok raw ->
     clean raw = Ok (np.Float2 [], rest) ->
     get_xy_origin read_json clean pl_path = Raise ValueError) /\
  (forall e,
     read_json pl_path = Raise e ->
     get_xy_origin read_json clean pl_path = Raise e) /\
  (forall raw e,
     read_json pl_path = Ok raw ->
     clean raw = Raise e ->
     get_xy_origin read_json clean pl_path = Raise e).
Proof.
  unfold get_xy_origin. split; [|split].
  - intros raw rest -> Hc. cbn [rbind]. rewrite Hc. reflexivity.
  - intros e ->. reflexivity.
  - intros raw e -> Hc. cbn [rbind]. rewrite Hc. reflexivity.
Qed.

(** X13. The cell that opens the ultrasound image of the tendon: when the
    position list is a non-empty table of (x, y) pairs and the image file is
    read and windowed, the image has the origin (least x, least y, 4), the
    spacing (25, 25, 25), the mirrored z direction and 8-bit samples. *)
Theorem us_tendon_frame clean us_pl_path tendon_us_path raw rest rows
    file windowed :
  read_json us_pl_path = Ok raw ->
  clean raw = Ok (np.Float2 rows, rest) ->
  rows <> [] ->
  Forall (fun r => length r = 2%nat) rows ->
  ReadImage tendon_us_path = Ok file ->
  window_image file 50 = Ok windowed ->
  exists img mx my,
    cells.us_tendon ReadImage window_image read_json clean us_pl_path
      tendon_us_path = Ok img /\
    least mx (column 0 rows) /\
    least my (column 1 rows) /\
    sitk.GetOrigin img = [mx; my; 4] /\
    sitk.GetSpacing img = [25; 25; 25] /\
    sitk.GetDirection img = [1; 0; 0; 0; 1; 0; 0; 0; -1] /\
    sitk.GetPixelID img = sitk.sitkUInt8.
Proof.
  intros Hraw Hclean Hne Hall Hfile Hw.
  destruct (get_xy_origin_pairs clean us_pl_path raw rest rows)
    as [mx [my [Hrun [Hx Hy]]]]; try assumption.
  eexists. exists mx, my. split.
  { unfold cells.us_tendon. rewrite Hrun. cbn [rbind].
    unfold cells.index. simpl lookup. cbn [rbind].
    apply open_us_Ok. exists file, windowed, (25, 25, 25), (mx, my, 4).
    repeat split;
      solve [assumption | reflexivity
            | unfold cells.us_spacing; apply spacing_of_list_pos; lra]. }
  split; [exact Hx|]. split; [exact Hy|].
  split; [reflexivity|]. split; [reflexivity|]. split; [reflexivity|].
  unfold sitk.GetPixelID, quarter_turn. cbn [sitk.pixels].
  destruct (np.shape (sitk.pixels windowed)) as [[d0 d1] d2].
  rewrite dt_of_fun. reflexivity.
Qed.

(** X16. The same cell raises [IndexError] when the table of positions has
    a single column: the second component of the origin is then missing. *)
Theorem us_tendon_one_column clean us_pl_path tendon_us_path raw rest rows :
  read_json us_pl_path = Ok raw ->
  clean raw = Ok (np.Float2 rows, rest) ->
  rows <> [] ->
  Forall (fun r => length r = 1%nat) rows ->
  cells.us_tendon ReadImage window_image read_json clean us_pl_path
    tendon_us_path = Raise IndexError.
Proof.
  intros Hraw Hclean Hne Hall.
  unfold cells.us_tendon, get_xy_origin.
  rewrite Hraw. cbn [rbind]. rewrite Hclean. cbn [rbind fst].
  destruct rows as [|r rows]; [congruence|].
  apply Forall_cons in Hall as [Hr Hall].
  destruct r as [|x [|]]; try discriminate.
  cbn [np.min0 rbind].
  assert (Hfold : exists m, fold_left np.minimum rows [x] = [m]).
  { clear -Hall. revert x. induction rows as [|r rows IH]; intros x.
    - eauto.
    - apply Forall_cons in Hall as [Hr Hall].
      destruct r as [|a [|]]; try discriminate.
      cbn [fold_left]. apply (IH Hall). }
  destruct Hfold as [m ->]. reflexivity.
Qed.

End origin_more.

Lemma get_xy_origin_order_witness :
  get_xy_origin samples.read_json samples2.clean3 "stage.pos" =
  get_xy_origin samples.read_json samples2.clean3_shuffled "stage.pos".
Proof.
  apply (get_xy_origin_order samples.read_json samples2.clean3
           samples2.clean3_shuffled "stage.pos" samples.log_with_text
           py.PNone py.PNone [[1; 5]; [3; 2]; [0; 9]]%R
           [[0; 9]; [1; 5]; [3; 2]]%R).
  - reflexivity.
  - reflexivity.
  - reflexivity.
  - exact (Permutation_app_comm [[1; 5]; [3; 2]]%R [[0; 9]]%R).
  - repeat constructor.
Defined.

Lemma get_xy_origin_empty_or_unreadable_witness :
  get_xy_origin samples.read_json samples2.clean_empty "stage.pos"
  = Raise ValueError.
Proof.
  destruct (get_xy_origin_empty_or_unreadable samples.read_json
              samples2.clean_empty "stage.pos") as [Hempty _].
  apply (Hempty samples.log_with_text py.PNone); reflexivity.
Defined.

Lemma us_tendon_frame_witness :
  exists img,
    cells.us_tendon samples.ReadImage samples.window_image samples.read_json
      samples2.clean3 "stage.pos" "us.tif" = Ok img /\
    sitk.GetOrigin img = [0; 2; 4]%R /\
    sitk.GetSpacing img = [25; 25; 25]%R.
Proof.
  destruct (us_tendon_frame samples.ReadImage samples.window_image
              samples.read_json samples2.clean3 "stage.pos" "us.tif"
              samples.log_with_text py.PNone [[1; 5]; [3; 2]; [0; 9]]%R
              samples.bright_voxel samples.bright_voxel)
    as [img [mx [my [Hrun [[Hxin Hxle] [[Hyin Hyle] [Ho [Hs _]]]]]]]];
    try reflexivity.
  - discriminate.
  - repeat constructor.
  - exists img. split; [exact Hrun|]. split; [|exact Hs].
    rewrite Ho.
    assert (Hx0 : (mx <= 0)%R) by (apply Hxle; simpl; do 2 right; left).
    assert (Hy2 : (my <= 2)%R) by (apply Hyle; simpl; right; left).
    simpl in Hxin, Hyin.
    assert (mx = 0%R) as ->.
    { repeat (apply elem_of_cons in Hxin as [->|Hxin]); try lra.
      apply elem_of_nil in Hxin. contradiction. }
    assert (my = 2%R) as ->.
    { repeat (apply elem_of_cons in Hyin as [->|Hyin]); try lra.
      apply elem_of_nil in Hyin. contradiction. }
    reflexivity.
Defined.

Lemma us_tendon_one_column_witness :
  cells.us_tendon samples.ReadImage samples.window_image samples.read_json
    (fun _ => Ok (np.Float2 [[1]; [3]]%R, py.PNone)) "stage.pos" "us.tif"
  = Raise IndexError.
Proof.
  apply (us_tendon_one_column samples.ReadImage samples.window_image
           samples.read_json (fun _ => Ok (np.Float2 [[1]; [3]]%R, py.PNone))
           "stage.pos" "us.tif" samples.log_with_text py.PNone [[1]; [3]]%R).
  - reflexivity.
  - reflexivity.
  - discriminate.
  - repeat constructor.
Defined.

(* ===================================================================== *)
(** ** More on applying the transform *)
(* ===================================================================== *)

Section apply_more.
Import obj geom.
Local Open Scope R_scope.

Lemma SetParameters_short t0 (p : list R) :
  (length p < 6)%nat -> sitk.SetParameters t0 p = Raise RuntimeError.
Proof.
  destruct p as [|a [|b [|c [|d [|e [|f p]]]]]]; simpl; intros H;
    try reflexivity.
  lia.
Qed.

(** X9. A parameter vector of fewer than six components makes
    [apply_transform] raise [RuntimeError] before any image is read or
    created: the store has gained the new transform, still the identity,
    and nothing else. *)
Theorem apply_transform_short_parameters (h : store) (moving fixed params : ref)
    (p : list R) :
  h !! params = Some (OArray p) ->
  (length p < 6)%nat ->
  apply_transform moving fixed params h =
  (Raise RuntimeError, h ++ [OTransform sitk.VersorRigid3DTransform_new]).
Proof.
  intros Hp Hlen. rewrite apply_transform_run. cbv zeta.
  rewrite (lookup_app_l_Some _ _ _ _ Hp).
  rewrite (SetParameters_short _ p Hlen). reflexivity.
Qed.

End apply_more.

Lemma apply_transform_short_parameters_witness :
  apply_transform 0 0 1 samples2.store_short =
  (Raise RuntimeError,
   samples2.store_short ++ [obj.OTransform sitk.VersorRigid3DTransform_new]).
Proof.
  apply (apply_transform_short_parameters samples2.store_short 0 0 1
           [0; 0; 0; 1; 2]%R).
  - reflexivity.
  - simpl. lia.
Defined.

Section negation_more.
Import obj geom.
Local Open Scope R_scope.

Lemma vsub_vadd (a b g : vec) : vsub a b = g -> a = vadd b g.
Proof.
  destruct a as [[? ?] ?], b as [[? ?] ?], g as [[? ?] ?].
  unfold vsub, vadd. intros H. inversion H. apply vec_eq; lra.
Qed.

(** X11. Going through the transform of [p] and then through the
    transform of [-1 * p], as the two registration cells do, moves every point
    by the same vector R^-1 t - t. The point comes back to where it was, in
    either order of the two transforms, when [p] has no rotation part or no
    translation part. *)
Theorem negated_round_trip (p : list R) (t t' : sitk.VersorRigid3DTransform) :
  rigid.valid_parameters p ->
  sitk.SetParameters sitk.VersorRigid3DTransform_new p = Ok t ->
  sitk.SetParameters sitk.VersorRigid3DTransform_new (np.scale (-1) p) = Ok t' ->
  (forall x,
     sitk.TransformPoint t' (sitk.TransformPoint t x) =
     vadd x (vsub (mulv (inverse (sitk.GetMatrix t)) (sitk.translation t))
                  (sitk.translation t))) /\
  ((exists tx ty tz, p = [0; 0; 0; tx; ty; tz]) \/
   (exists vx vy vz, p = [vx; vy; vz; 0; 0; 0]) ->
   forall x,
     sitk.TransformPoint t' (sitk.TransformPoint t x) = x /\
     sitk.TransformPoint t (sitk.TransformPoint t' x) = x).
Proof.
  intros Hvalid Ht Ht'.
  destruct (negated_parameters_maps p t Hvalid Ht)
    as [t'' [Hneg [_ [_ [Hleft [Hright [Hgap [Hsame Hback]]]]]]]].
  rewrite Ht' in Hneg. inversion Hneg; subst t''. clear Hneg.
  split.
  - intros x. specialize (Hgap (sitk.TransformPoint t x)).
    rewrite Hleft in Hgap. apply vsub_vadd, Hgap.
  - intros Hcase.
    assert (Hfix : mulv (sitk.GetMatrix t) (sitk.translation t)
                   = sitk.translation t).
    { destruct Hcase as [[tx [ty [tz ->]]]|[vx [vy [vz ->]]]];
        unfold sitk.SetParameters in Ht; cbv zeta in Ht; inversion Ht;
        unfold sitk.GetMatrix, sitk.rotation_of, mulv, dot, Rdiv;
        cbn [sitk.versor sitk.translation]; apply vec_eq; ring. }
    intros x. split.
    + apply Hback, Hfix.
    + rewrite (proj2 Hsame Hfix). apply Hright.
Qed.

(** *** The cell that registers the microscopy image *)

Lemma apply_transform_post (h : store) (moving fixed params : ref) :
  exists ext,
    (apply_transform moving fixed params h).2 = h ++ ext /\
    forall reg,
      (apply_transform moving fixed params h).1 = Ok reg ->
      reg = S (length h) /\
      exists t img, ext = [OTransform t; OImage img].
Proof.
  rewrite apply_transform_run. cbv zeta.
  destruct ((h ++ [OTransform sitk.VersorRigid3DTransform_new]) !! params)
    as [[img|t|p]|];
    try (eexists; split; [reflexivity|discriminate]).
  destruct (sitk.SetParameters sitk.VersorRigid3DTransform_new p) as [t|e];
    try (eexists; split; [reflexivity|discriminate]).
  destruct ((h ++ [OTransform t]) !! fixed) as [[f|t'|a]|];
    try (eexists; split; [reflexivity|discriminate]).
  destruct ((h ++ [OTransform t]) !! moving) as [[m|t'|a]|];
    try (eexists; split; [reflexivity|discriminate]).
  eexists. split; [reflexivity|].
  intros reg Hreg. cbn [fst] in Hreg. inversion Hreg. eauto.
Qed.

Lemma register_mpm_to_us_cases (h : store) (mpm us ct : ref) :
  register_mpm_to_us mpm us ct h =
  match h !! ct with
  | Some (OArray p) =>
      apply_transform mpm us (length h) (h ++ [OArray (np.scale (-1) p)])
  | Some _ => (Raise TypeError, h)
  | None => (Raise RuntimeError, h)
  end.
Proof.
  unfold register_mpm_to_us. unfold bind at 1.
  unfold oo.scalar_mul. unfold bind at 1. rewrite load_array_run.
  destruct (h !! ct) as [[img|t|p]|]; reflexivity.
Qed.

(** X12. The cell that registers the microscopy image onto the ultrasound
    grid changes no object that was in the store, whether it returns or
    raises: the coordinate transform is still what it was, and the negated
    vector is a new object. When the cell returns, its result is a new image. *)
Theorem register_mpm_to_us_leaves_inputs (h : store)
    (mpm us ct : ref) :
  (forall l o,
     h !! l = Some o ->
     (register_mpm_to_us mpm us ct h).2 !! l = Some o) /\
  (forall p,
     h !! ct = Some (OArray p) ->
     (register_mpm_to_us mpm us ct h).2 !! length h
       = Some (OArray (np.scale (-1) p))) /\
  (forall reg,
     (register_mpm_to_us mpm us ct h).1 = Ok reg ->
     h !! reg = None /\
     exists img,
       (register_mpm_to_us mpm us ct h).2 !! reg = Some (OImage img)).
Proof.
  rewrite register_mpm_to_us_cases.
  destruct (h !! ct) as [[img|t|p]|] eqn:Hct;
    try (split; [intros l o Hl; exact Hl|split; [discriminate|discriminate]]).
  destruct (apply_transform_post (h ++ [OArray (np.scale (-1) p)]) mpm us
              (length h)) as [ext [Hstore Hreg]].
  rewrite Hstore. split; [|split].
  - intros l o Hl. rewrite <- app_assoc. apply lookup_app_l_Some, Hl.
  - intros p' Hp'. inversion Hp'; subst p'.
    rewrite <- app_assoc. apply list_lookup_middle. reflexivity.
  - intros reg Hrun. apply Hreg in Hrun as [-> [t [img ->]]].
    rewrite length_app. simpl. split.
    + apply lookup_ge_None. lia.
    + exists img.
      change (OArray (np.scale (-1) p) :: [OTransform t; OImage img])
        with ([OArray (np.scale (-1) p); OTransform t] ++ [OImage img]).
      rewrite <- app_assoc.
      change ([OArray (np.scale (-1) p)] ++ [OTransform t; OImage img])
        with ([OArray (np.scale (-1) p); OTransform t] ++ [OImage img]).
      rewrite app_assoc. apply list_lookup_middle.
      rewrite length_app. simpl. lia.
Qed.

End negation_more.

Lemma negated_round_trip_witness :
  exists t t',
    sitk.SetParameters sitk.VersorRigid3DTransform_new samples2.pure_shift
      = Ok t /\
    sitk.SetParameters sitk.VersorRigid3DTransform_new
      (np.scale (-1) samples2.pure_shift) = Ok t' /\
    forall x, sitk.TransformPoint t' (sitk.TransformPoint t x) = x.
Proof.
  do 2 eexists. split; [reflexivity|]. split; [reflexivity|].
  intros x.
  refine (proj1 (proj2 (negated_round_trip samples2.pure_shift _ _
                          ltac:(simpl; lra) eq_refl eq_refl) _ x)).
  left. exists 1%R, 2%R, 3%R. reflexivity.
Defined.

